(** * Email validation API: the request handlers, the error middleware and
      the disposable-domain checker, embedded from the TypeScript sources.

    - [Js]         : the JavaScript values the handlers receive (parsed JSON
                     bodies), with the coercions the code relies on
                     ([ToBoolean] for [!x] and [||], [ToString] for
                     [RegExp.prototype.test]).
    - [Regex]      : the regular-expression literal of the validation routes
                     and [RegExp.prototype.test], with the [lastIndex] state
                     of the RegExp object.
    - [Routes]     : [router.post('/validate')] and [router.post('/batch')].
    - [ErrorMw]    : [errorHandler] of [middleware/errorHandler.ts].
    - [Disposable] : [isDisposable] of the disposable-domain utility.
    - [Spec]       : the properties of the specification, as definitions.
    - [RegexFacts], [PatternFacts], [RouteFacts] : lemmas on the matcher,
                     on the pattern in words and on the two routes.
    - [RouteProperties], [ErrorProperties], [DisposableProperties] :
                     the properties of the specification, settled. *)

From Stdlib Require Import Ascii String.
From Stdlib Require Import List Bool Arith NArith QArith Lia.
Import ListNotations.
Close Scope Q_scope.

Set Implicit Arguments.
Set Warnings "-register-all".

(* ================================================================== *)
(** ** JavaScript values *)
(* ================================================================== *)

Module Js.

(** A JavaScript string is a sequence of UTF-16 code units. *)
Abbreviation unit16 := N (only parsing).
Abbreviation jsstring := (list N) (only parsing).

(** [js "text"] is the JavaScript string of an ASCII literal. *)
Definition js (s : string) : jsstring :=
  map N_of_ascii (list_ascii_of_string s).

(** The code units of [@], [.] and [,]. *)
Definition at_sign : N := 64%N.
Definition dot : N := 46%N.
Definition comma : N := 44%N.

Definition jsstring_eqb (a b : jsstring) : bool :=
  if list_eq_dec N.eq_dec a b then true else false.

(** JavaScript values: [undefined] and the values [express.json()] can put
    in [req.body].  A Number is carried by its canonical rendering (the
    result of [Number::toString], e.g. [js "0"], [js "1.5"], [js "-3"]): the
    handlers observe a number only through its truthiness and through that
    rendering.  Both zeros render as ["0"]. *)
Inductive value : Type :=
  | VUndefined
  | VNull
  | VBool (b : bool)
  | VNum (rendering : jsstring)
  | VStr (s : jsstring)
  | VArr (elements : list value)
  | VObj (properties : list (jsstring * value)).

(** Completion of an evaluation: a normal result, or a thrown TypeError.
    For an [async] route handler the latter is a rejected promise: the
    handler has sent no response. *)
Inductive completion (A : Type) : Type :=
  | Normal (a : A)
  | ThrowTypeError.
Arguments Normal {A} a.
Arguments ThrowTypeError {A}.

(** [ToBoolean]: the truthiness tested by [!x] and [x || y]. *)
Definition ToBoolean (v : value) : bool :=
  match v with
  | VUndefined => false
  | VNull => false
  | VBool b => b
  | VNum r => negb (jsstring_eqb r (js "0") || jsstring_eqb r (js "NaN"))
  | VStr s => match s with [] => false | _ :: _ => true end
  | VArr _ => true
  | VObj _ => true
  end.

(** [a || b] *)
Definition or_else (a b : value) : value :=
  if ToBoolean a then a else b.

(** Own-property lookup in a parsed object: [undefined] when absent. *)
Fixpoint own_property (props : list (jsstring * value)) (key : jsstring)
  : value :=
  match props with
  | [] => VUndefined
  | (k, v) :: rest =>
      if jsstring_eqb k key then v else own_property rest key
  end.

Fixpoint has_own_property (props : list (jsstring * value)) (key : jsstring)
  : bool :=
  match props with
  | [] => false
  | (k, _) :: rest => jsstring_eqb k key || has_own_property rest key
  end.

(** [const { key } = v]: destructuring throws on [undefined] and [null]; a
    plain object yields its own property (neither [Object.prototype] nor
    [Array.prototype] has a property named [email] or [emails]); any other
    value yields [undefined].  Used only with those two keys. *)
Definition destructure (v : value) (key : jsstring) : completion value :=
  match v with
  | VUndefined | VNull => ThrowTypeError
  | VObj props => Normal (own_property props key)
  | _ => Normal VUndefined
  end.

(** [Array.isArray] *)
Definition isArray (v : value) : bool :=
  match v with
  | VArr _ => true
  | _ => false
  end.

(** [Array.prototype.join] with the default separator [","] over the string
    conversions of the elements. *)

Fixpoint intercalate (parts : list jsstring) : jsstring :=
  match parts with
  | [] => []
  | [s] => s
  | s :: more => s ++ comma :: intercalate more
  end.

(** [ToString] on a value.  For an object, [OrdinaryToPrimitive] with hint
    string calls [toString] then [valueOf] when they are callable: a parsed
    object has no callable own property, so an own [toString] property hides
    [Object.prototype.toString], [valueOf] returns the object itself, and a
    TypeError is thrown; without it the result is ["[object Object]"].
    An array goes through [Array.prototype.join], in which an [undefined]
    or [null] element gives the empty string. *)
Fixpoint ToString (v : value) : completion jsstring :=
  match v with
  | VUndefined => Normal (js "undefined")
  | VNull => Normal (js "null")
  | VBool true => Normal (js "true")
  | VBool false => Normal (js "false")
  | VNum r => Normal r
  | VStr s => Normal s
  | VArr l =>
      match
        (fix elements (l : list value) : completion (list jsstring) :=
           match l with
           | [] => Normal []
           | x :: more =>
               match (match x with
                      | VUndefined | VNull => Normal []
                      | _ => ToString x
                      end) with
               | Normal s =>
                   match elements more with
                   | Normal ss => Normal (s :: ss)
                   | ThrowTypeError => ThrowTypeError
                   end
               | ThrowTypeError => ThrowTypeError
               end
           end) l
      with
      | Normal parts => Normal (intercalate parts)
      | ThrowTypeError => ThrowTypeError
      end
  | VObj props =>
      if has_own_property props (js "toString") then ThrowTypeError
      else Normal (js "[object Object]")
  end.

End Js.

(* ================================================================== *)
(** ** Regular expressions *)
(* ================================================================== *)

Module Regex.
Import Js.

(** The fragment of the pattern language the literal
    [/^[^\s@]+@[^\s@]+\.[^\s@]+$/] is written in. *)
Inductive class_item : Type :=
  | ClsSpace                    (* \s *)
  | ClsUnit (c : unit16).       (* a literal character in a class *)

Inductive atom : Type :=
  | AChar (c : unit16)                                (* @   \. *)
  | AClass (negated : bool) (items : list class_item). (* [...]  [^...] *)

Inductive term : Type :=
  | TStart                      (* ^ *)
  | TEnd                        (* $ *)
  | TAtom (a : atom)            (* a *)
  | TPlus (a : atom).           (* a+ (greedy) *)

Definition pattern := list term.

(** [\s]: the WhiteSpace and LineTerminator code points of ECMAScript. *)
Definition is_space (c : unit16) : bool :=
  ((9 <=? c) && (c <=? 13)                (* TAB LF VT FF CR *)
   || (c =? 32) || (c =? 160)             (* SP, NBSP *)
   || (c =? 5760)                         (* U+1680 *)
   || ((8192 <=? c) && (c <=? 8202))      (* U+2000 .. U+200A *)
   || (c =? 8232) || (c =? 8233)          (* U+2028, U+2029 *)
   || (c =? 8239) || (c =? 8287)          (* U+202F, U+205F *)
   || (c =? 12288) || (c =? 65279))%N.    (* U+3000, U+FEFF *)

Definition item_matches (i : class_item) (c : unit16) : bool :=
  match i with
  | ClsSpace => is_space c
  | ClsUnit u => (c =? u)%N
  end.

Definition atom_matches (a : atom) (c : unit16) : bool :=
  match a with
  | AChar u => (c =? u)%N
  | AClass negated items =>
      xorb negated (existsb (fun i => item_matches i c) items)
  end.

(** Backtracking matcher.  [k] is the continuation (the rest of the
    pattern), [i] the index of the next code unit and [s] the input from
    that index on; the result is the end index of the match. *)
Fixpoint plus_match (ok : unit16 -> bool)
    (k : nat -> jsstring -> option nat) (i : nat) (s : jsstring)
  : option nat :=
  match s with
  | [] => None
  | c :: s' =>
      if ok c then
        match plus_match ok k (S i) s' with
        | Some e => Some e
        | None => k (S i) s'
        end
      else None
  end.

Fixpoint match_here (p : pattern) : nat -> jsstring -> option nat :=
  match p with
  | [] => fun i _ => Some i
  | TStart :: rest =>
      fun i s => if Nat.eqb i 0 then match_here rest i s else None
  | TEnd :: rest =>
      fun i s => match s with [] => match_here rest i s | _ :: _ => None end
  | TAtom a :: rest =>
      fun i s =>
        match s with
        | [] => None
        | c :: s' => if atom_matches a c then match_here rest (S i) s' else None
        end
  | TPlus a :: rest => plus_match (atom_matches a) (match_here rest)
  end.

(** The RegExp object: its pattern, the [g] and [y] flags, and the mutable
    [lastIndex] property. *)
Record RegExp : Type := mkRegExp {
  source : pattern;
  global : bool;
  sticky : bool;
  lastIndex : nat
}.

Definition set_lastIndex (R : RegExp) (n : nat) : RegExp :=
  mkRegExp (source R) (global R) (sticky R) n.

(** The search loop of [RegExpBuiltinExec]: try at [i], then (unless
    sticky) at each later index up to the end of the input. *)
Fixpoint search (p : pattern) (is_sticky : bool) (i : nat) (s : jsstring)
  : option nat :=
  match match_here p i s with
  | Some e => Some e
  | None =>
      if is_sticky then None
      else match s with
           | [] => None
           | _ :: s' => search p is_sticky (S i) s'
           end
  end.

(** [RegExpBuiltinExec(R, S)], reduced to whether a match was found, with
    the RegExp object after the call. *)
Definition RegExpBuiltinExec (R : RegExp) (str : jsstring) : bool * RegExp :=
  let flagged := global R || sticky R in
  let start := if flagged then lastIndex R else 0 in
  if Nat.ltb (length str) start then
    (false, if flagged then set_lastIndex R 0 else R)
  else
    match search (source R) (sticky R) start (skipn start str) with
    | Some e => (true, if flagged then set_lastIndex R e else R)
    | None => (false, if flagged then set_lastIndex R 0 else R)
    end.

(** [R.test(v)]: [ToString(v)], then [RegExpBuiltinExec]. *)
Definition test (R : RegExp) (v : value) : completion (bool * RegExp) :=
  match ToString v with
  | Normal str => Normal (RegExpBuiltinExec R str)
  | ThrowTypeError => ThrowTypeError
  end.

(** [/^[^\s@]+@[^\s@]+\.[^\s@]+$/] *)
Definition not_space_or_at : atom := AClass true [ClsSpace; ClsUnit at_sign].

Definition emailRegex_source : pattern :=
  [ TStart;
    TPlus not_space_or_at; TAtom (AChar at_sign);
    TPlus not_space_or_at; TAtom (AChar dot);
    TPlus not_space_or_at;
    TEnd ].

(** Evaluating the literal creates a fresh object: no flags, [lastIndex] 0. *)
Definition emailRegex : RegExp := mkRegExp emailRegex_source false false 0.

End Regex.

(* ================================================================== *)
(** ** Validation routes *)
(* ================================================================== *)

Module Routes.
Import Js Regex.

(** Computations that use a RegExp object: its state is threaded, and a
    TypeError aborts. *)
Definition M (A : Type) : Type := RegExp -> completion (A * RegExp).

Definition ret {A} (a : A) : M A := fun R => Normal (a, R).

Definition bind {A B} (m : M A) (f : A -> M B) : M B :=
  fun R =>
    match m R with
    | Normal (a, R') => f a R'
    | ThrowTypeError => ThrowTypeError
    end.

Notation "x <- m ;; k" := (bind m (fun x => k))
  (at level 61, m at next level, right associativity).

(** [emailRegex.test(v)] *)
Definition regex_test (v : value) : M bool := fun R => test R v.

(** [array.map(callback)]: the callback runs on the elements in order. *)
Fixpoint array_map {A} (callback : value -> M A) (l : list value) : M (list A) :=
  match l with
  | [] => ret []
  | x :: rest =>
      y <- callback x ;;
      ys <- array_map callback rest ;;
      ret (y :: ys)
  end.

(** Run a computation on a RegExp object and keep its result. *)
Definition with_regex {A} (R : RegExp) (m : M A) : completion A :=
  match m R with
  | Normal (a, _) => Normal a
  | ThrowTypeError => ThrowTypeError
  end.

(** Response bodies. *)
Record ErrorBody : Type := mkErrorBody {
  error : jsstring;
  message : jsstring
}.

Record ValidationResult : Type := mkValidationResult {
  email : value;
  valid : bool;
  quality_score : Q;
  checks_syntax_valid : bool
}.

Record Metadata : Type := mkMetadata {
  processing_time_ms : nat;
  timestamp : jsstring
}.

Record BatchResult : Type := mkBatchResult {
  results : list ValidationResult;
  total : nat;
  valid_count : nat;
  batch_processing_time_ms : nat
}.

Inductive body : Type :=
  | BError (e : ErrorBody)
  | BValidation (r : ValidationResult) (metadata : Metadata) (note : jsstring)
  | BBatch (b : BatchResult).

(** What [res.status(code).json(body)] sends; [res.json(body)] alone sends
    with status 200. *)
Record response : Type := mkResponse {
  status : nat;
  payload : body
}.

Definition score (isValid : bool) : Q := if isValid then 0.8%Q else 0%Q.

(** [router.post('/validate', ...)].  [now] is [new Date().toISOString()]. *)
Definition validate (req_body : value) (now : jsstring) : completion response :=
  match destructure req_body (js "email") with
  | ThrowTypeError => ThrowTypeError
  | Normal email =>
      if negb (ToBoolean email) then
        Normal (mkResponse 400
                  (BError (mkErrorBody (js "VALIDATION_ERROR")
                                       (js "Email is required"))))
      else
        with_regex emailRegex
          (isValid <- regex_test email ;;
           ret (mkResponse 200
                  (BValidation
                     (mkValidationResult email isValid (score isValid) isValid)
                     (mkMetadata 10 now)
                     (js "Simplified validation - full features coming soon!"))))
  end.

(** The callback of [emails.map] in the batch route: three calls of
    [emailRegex.test] on the entry. *)
Definition batch_entry (email : value) : M ValidationResult :=
  v <- regex_test email ;;
  q <- regex_test email ;;
  c <- regex_test email ;;
  ret (mkValidationResult email v (score q) c).

(** [router.post('/batch', ...)] *)
Definition batch (req_body : value) : completion response :=
  match destructure req_body (js "emails") with
  | ThrowTypeError => ThrowTypeError
  | Normal emails =>
      if negb (ToBoolean emails) || negb (isArray emails) then
        Normal (mkResponse 400
                  (BError (mkErrorBody (js "VALIDATION_ERROR")
                                       (js "Emails array is required"))))
      else
        match emails with
        | VArr entries =>
            with_regex emailRegex
              (results <- array_map batch_entry entries ;;
               ret (mkResponse 200
                      (BBatch (mkBatchResult results
                                 (length entries)
                                 (length (filter valid results))
                                 50))))
        | _ => ThrowTypeError    (* [emails.map] is not a function *)
        end
  end.

End Routes.

(* ================================================================== *)
(** ** Error-handling middleware *)
(* ================================================================== *)

Module ErrorMw.
Import Js.

(** The properties [errorHandler] reads from [err : any]; a property the
    error does not have reads as [VUndefined]. *)
Record error_object : Type := mkError {
  err_statusCode : value;
  err_status : value;
  err_name : value;
  err_message : value;
  err_stack : value
}.

Record request : Type := mkRequest {
  req_path : jsstring;
  req_method : jsstring
}.

(** The record passed to [logger.error('Error occurred', ...)]. *)
Record log_entry : Type := mkLog {
  log_error : value;
  log_stack : value;
  log_path : jsstring;
  log_method : jsstring
}.

(** The object given to [res.json]: [stack] is [None] when the spread adds
    no [stack] key. *)
Record error_body : Type := mkBody {
  body_error : value;
  body_message : value;
  body_stack : option value
}.

Record error_response : Type := mkErrorResponse {
  logged : log_entry;
  status : value;
  payload : error_body
}.

(** [process.env.NODE_ENV === 'development'] *)
Definition is_development (node_env : option jsstring) : bool :=
  match node_env with
  | Some e => jsstring_eqb e (js "development")
  | None => false
  end.

(** [errorHandler(err, req, res, next)], with [process.env.NODE_ENV]. *)
Definition errorHandler (node_env : option jsstring) (err : error_object)
    (req : request) : error_response :=
  let entry :=
    mkLog (err_message err) (err_stack err) (req_path req) (req_method req) in
  let statusCode :=
    or_else (or_else (err_statusCode err) (err_status err)) (VNum (js "500")) in
  mkErrorResponse entry statusCode
    (mkBody
       (or_else (err_name err) (VStr (js "INTERNAL_SERVER_ERROR")))
       (or_else (err_message err) (VStr (js "An unexpected error occurred")))
       (if is_development node_env then Some (err_stack err) else None)).

End ErrorMw.

(* ================================================================== *)
(** ** Disposable-domain checker *)
(* ================================================================== *)

Module Disposable.
Import Js.

(** [String.prototype.split] with a separator of one code unit. *)
Fixpoint split (sep : unit16) (s : jsstring) : list jsstring :=
  match s with
  | [] => [[]]
  | c :: rest =>
      if (c =? sep)%N then [] :: split sep rest
      else match split sep rest with
           | piece :: pieces => (c :: piece) :: pieces
           | [] => [[c]]
           end
  end.

(** Lowercase form of one code unit: Basic Latin, Latin-1, and the two code
    points outside them whose lowercase form contains a Basic Latin letter
    (U+0130 and U+212A).  The case table of the other code units is not
    embedded: their lowercase forms contain no Basic Latin character, so
    they cannot turn a segment into one of the listed domains, and they are
    kept as they are. *)
Definition lower_unit (c : unit16) : jsstring :=
  if ((65 <=? c) && (c <=? 90))%N then [(c + 32)%N]
  else if ((192 <=? c) && (c <=? 222) && negb (c =? 215))%N then [(c + 32)%N]
  else if (c =? 304)%N then [105%N; 775%N]
  else if (c =? 8490)%N then [107%N]
  else [c].

(** [String.prototype.toLowerCase] *)
Definition toLowerCase (s : jsstring) : jsstring := flat_map lower_unit s.

Definition disposableDomains : list jsstring :=
  [ js "tempmail.com";
    js "guerrillamail.com";
    js "10minutemail.com";
    js "throwaway.email" ].

(** [array.includes(x)] for an array of strings and [x] a string or
    [undefined] ([None]). *)
Definition includes (l : list jsstring) (x : option jsstring) : bool :=
  match x with
  | None => false
  | Some d => existsb (jsstring_eqb d) l
  end.

(** [isDisposable(email)] *)
Definition isDisposable (email : jsstring) : bool :=
  let domain := option_map toLowerCase (nth_error (split at_sign email) 1) in
  includes disposableDomains domain.

End Disposable.

(* ================================================================== *)
(** ** Server configuration and request pipeline *)
(* ================================================================== *)

Module Server.
Import Js.

(** The variables of [process.env] that [server.ts] and the error handler
    read: each is a string, or unset. *)
Record environment : Type := mkEnv {
  PORT : option jsstring;
  HOST : option jsstring;
  NODE_ENV : option jsstring;
  CORS_ORIGIN : option jsstring;
  TRUST_PROXY : option jsstring;
  API_BASE_PATH : option jsstring;
  API_VERSION : option jsstring
}.

(** [process.env.X || 'default'] with a string default: the empty string is
    falsy like [undefined]. *)
Definition or_default (v : option jsstring) (default : jsstring) : jsstring :=
  match v with
  | Some (c :: s) => c :: s
  | _ => default
  end.

(** [process.env.PORT || 3000]: the variable's string, or the number. *)
Definition port (env : environment) : value :=
  match PORT env with
  | Some (c :: s) => VStr (c :: s)
  | _ => VNum (js "3000")
  end.

Definition host (env : environment) : jsstring := or_default (HOST env) (js "0.0.0.0").

(** The constant [NODE_ENV] of [server.ts]. *)
Definition node_env (env : environment) : jsstring :=
  or_default (NODE_ENV env) (js "development").

Definition cors_origin (env : environment) : jsstring :=
  or_default (CORS_ORIGIN env) (js "*").

(** [process.env.TRUST_PROXY === 'true'] *)
Definition trust_proxy (env : environment) : bool :=
  match TRUST_PROXY env with
  | Some v => jsstring_eqb v (js "true")
  | None => false
  end.

Definition apiBasePath (env : environment) : jsstring :=
  or_default (API_BASE_PATH env) (js "/api").

Definition apiVersion (env : environment) : jsstring :=
  or_default (API_VERSION env) (js "v1").

(** The mount path of the validation routes: [`${apiBasePath}/${apiVersion}`]. *)
Definition mount_path (env : environment) : jsstring :=
  apiBasePath env ++ js "/" ++ apiVersion env.

(** The body of [GET /]. *)
Record endpoint_map : Type := mkEndpoints {
  ep_validate : jsstring;
  ep_batch : jsstring;
  ep_health : jsstring
}.

Record descriptor : Type := mkDescriptor {
  d_name : jsstring;
  d_version : jsstring;
  d_status : jsstring;
  d_documentation : jsstring;
  d_endpoints : endpoint_map
}.

Definition root (env : environment) : descriptor :=
  mkDescriptor (js "Email Validation API") (js "1.0.0") (js "running")
    (apiBasePath env ++ js "/" ++ apiVersion env ++ js "/docs")
    (mkEndpoints
       (apiBasePath env ++ js "/" ++ apiVersion env ++ js "/validate")
       (apiBasePath env ++ js "/" ++ apiVersion env ++ js "/batch")
       (js "/health")).

(** Everything [server.ts] derives from the environment. *)
Record configuration : Type := mkConfiguration {
  c_port : value;
  c_host : jsstring;
  c_node_env : jsstring;
  c_cors_origin : jsstring;
  c_trust_proxy : bool;
  c_mount_path : jsstring;
  c_root : descriptor
}.

Definition configure (env : environment) : configuration :=
  mkConfiguration (port env) (host env) (node_env env) (cors_origin env)
    (trust_proxy env) (mount_path env) (root env).

(** What a client receives from one of the validation routes.  The module
    [express-async-errors] is loaded, so a route handler whose promise is
    rejected has its error passed to the error middleware, which is
    installed last. *)
Inductive answer : Type :=
  | FromRoute (r : Routes.response)
  | FromErrorHandler (r : ErrorMw.error_response).

(** The TypeError object of a failed conversion: [name] is inherited from
    [TypeError.prototype], the message and the stack are the engine's, and
    it has no [statusCode] or [status]. *)
Definition TypeError_object (message stack : jsstring) : ErrorMw.error_object :=
  ErrorMw.mkError VUndefined VUndefined (VStr (js "TypeError"))
    (VStr message) (VStr stack).

Definition answer_of (env : environment) (req : ErrorMw.request)
    (message stack : jsstring) (outcome : completion Routes.response) : answer :=
  match outcome with
  | Normal r => FromRoute r
  | ThrowTypeError =>
      FromErrorHandler
        (ErrorMw.errorHandler (NODE_ENV env) (TypeError_object message stack) req)
  end.

(** [POST <mount path>/validate] and [POST <mount path>/batch] through the
    application. *)
Definition post_validate (env : environment) (req : ErrorMw.request)
    (message stack : jsstring) (req_body : value) (now : jsstring) : answer :=
  answer_of env req message stack (Routes.validate req_body now).

Definition post_batch (env : environment) (req : ErrorMw.request)
    (message stack : jsstring) (req_body : value) : answer :=
  answer_of env req message stack (Routes.batch req_body).

End Server.

(* ================================================================== *)
(** ** External stores and shutdown *)
(* ================================================================== *)

Module Lifecycle.
Import Js.

(** A client handle; [closes] tells whether its [quit()] or [disconnect()]
    promise resolves. *)
Record client : Type := mkClient { closes : bool }.

(** The module-level variables of [config/redis] and [config/database], and
    the lines written with [console.log]. *)
Record modules : Type := mkModules {
  redisClient : option client;
  dbClient : option client;
  console : list jsstring
}.

(** The state when the modules are loaded: both variables are [null]. *)
Definition loaded : modules := mkModules None None [].

Definition console_log (line : jsstring) (m : modules) : modules :=
  mkModules (redisClient m) (dbClient m) (console m ++ [line]).

Definition initializeRedis (m : modules) : modules :=
  console_log
    (js "Redis initialization skipped (not required for basic operation)") m.

Definition initializeDatabase (m : modules) : modules :=
  console_log
    (js "Database initialization skipped (not required for basic operation)") m.

Definition initializeDisposableDomains (m : modules) : modules :=
  console_log
    (js "Disposable domains list initialization skipped (basic validation only)") m.

Definition getRedisClient (m : modules) : option client := redisClient m.
Definition getDatabaseClient (m : modules) : option client := dbClient m.

(** Calls of the exported initialisers, in any order and number. *)
Inductive call : Type :=
  | CallInitializeRedis
  | CallInitializeDatabase
  | CallInitializeDisposableDomains.

Definition perform (m : modules) (c : call) : modules :=
  match c with
  | CallInitializeRedis => initializeRedis m
  | CallInitializeDatabase => initializeDatabase m
  | CallInitializeDisposableDomains => initializeDisposableDomains m
  end.

Definition perform_all (calls : list call) (m : modules) : modules :=
  fold_left perform calls m.

(** What the callback of [server.close] in [gracefulShutdown] does. *)
Inductive event : Type :=
  | Info (message : jsstring)       (* logger.info *)
  | Error (message : jsstring)      (* logger.error *)
  | RedisQuit                       (* redis.quit() *)
  | DatabaseDisconnect              (* db.disconnect() *)
  | Exit (code : nat).              (* process.exit *)

Definition shutdown_failed : list event :=
  [Error (js "Error during graceful shutdown"); Exit 1].

Definition shutdown_completed : list event :=
  [Info (js "Graceful shutdown completed"); Exit 0].

Definition close_database (m : modules) : list event :=
  match getDatabaseClient m with
  | Some db =>
      DatabaseDisconnect ::
      (if closes db
       then Info (js "Database connection closed") :: shutdown_completed
       else shutdown_failed)
  | None => shutdown_completed
  end.

Definition close_callback (m : modules) : list event :=
  Info (js "HTTP server closed") ::
  match getRedisClient m with
  | Some redis =>
      RedisQuit ::
      (if closes redis
       then Info (js "Redis connection closed") :: close_database m
       else shutdown_failed)
  | None => close_database m
  end.

End Lifecycle.

(* ================================================================== *)
(** ** The properties of the specification, as definitions *)
(* ================================================================== *)

Module Spec.
Import Js Regex Routes.

Definition is_at (c : unit16) : bool := (c =? at_sign)%N.
Definition is_dot (c : unit16) : bool := (c =? dot)%N.

(** Number of [@] in a string. *)
Definition count_at (s : jsstring) : nat := length (filter is_at s).

Definition no_whitespace (s : jsstring) : bool :=
  forallb (fun c => negb (is_space c)) s.

(** The part before the first [@] (the whole string when there is none). *)
Fixpoint local_part (s : jsstring) : jsstring :=
  match s with
  | [] => []
  | c :: rest => if is_at c then [] else c :: local_part rest
  end.

(** The part after the first [@], when there is one. *)
Fixpoint after_first_at (s : jsstring) : option jsstring :=
  match s with
  | [] => None
  | c :: rest => if is_at c then Some rest else after_first_at rest
  end.

Definition domain_part (s : jsstring) : jsstring :=
  match after_first_at s with
  | Some d => d
  | None => []
  end.

(** The pattern as the specification words it: exactly one [@], no
    whitespace, and a [.] somewhere in the part after the [@]. *)
Definition stated_pattern (s : jsstring) : bool :=
  Nat.eqb (count_at s) 1 && no_whitespace s && existsb is_dot (domain_part s).

(** A [.] that is neither the first nor the last code unit. *)
Definition has_inner_dot (d : jsstring) : bool :=
  match d with
  | [] => false
  | _ :: rest => existsb is_dot (removelast rest)
  end.

Definition nonempty (s : jsstring) : bool :=
  match s with
  | [] => false
  | _ :: _ => true
  end.

(** The pattern of the literal, in the same words: exactly one [@], no
    whitespace, something before the [@], and after it a [.] that has
    something on both sides. *)
Definition syntax_pattern (s : jsstring) : bool :=
  Nat.eqb (count_at s) 1 && no_whitespace s
  && nonempty (local_part s) && has_inner_dot (domain_part s).

(** A matcher finds a match from index [i] on input [s]. *)
Definition succeeds (k : nat -> jsstring -> option nat) (i : nat) (s : jsstring)
  : Prop := exists e, k i s = Some e.

(** The code units of the class [[^\s@]]. *)
Definition class_unit (c : unit16) : bool := negb (is_space c) && negb (is_at c).

(** [local @ d1 . d2] with the three parts non-empty and in the class. *)
Definition decomposes (s : jsstring) : Prop :=
  exists l d1 d2,
    s = l ++ at_sign :: d1 ++ dot :: d2
    /\ l <> [] /\ d1 <> [] /\ d2 <> []
    /\ forallb class_unit l = true
    /\ forallb class_unit d1 = true
    /\ forallb class_unit d2 = true.

(** [emailRegex.test(s)] on a string, as a boolean. *)
Definition matches (s : jsstring) : bool := fst (RegExpBuiltinExec emailRegex s).

(** The invariant of a validation result. *)
Definition consistent (r : ValidationResult) : Prop :=
  quality_score r = (if valid r then 0.8%Q else 0%Q)
  /\ checks_syntax_valid r = valid r
  /\ (valid r = true <-> quality_score r = 0.8%Q)
  /\ (quality_score r = 0.8%Q <-> checks_syntax_valid r = true).

(** A validation result sent by one of the two routes. *)
Inductive produced (r : ValidationResult) : Prop :=
  | produced_validate (req_body : value) (now : jsstring)
      (metadata : Metadata) (note : jsstring) :
      validate req_body now = Normal (mkResponse 200 (BValidation r metadata note)) ->
      produced r
  | produced_batch (req_body : value) (b : BatchResult) :
      batch req_body = Normal (mkResponse 200 (BBatch b)) ->
      In r (results b) ->
      produced r.

(** The batch route with the test computed once per entry and the boolean
    reused for the three fields. *)
Definition batch_entry_once (email : value) : M ValidationResult :=
  isValid <- regex_test email ;;
  ret (mkValidationResult email isValid (score isValid) isValid).

Definition batch_once (req_body : value) : completion response :=
  match destructure req_body (js "emails") with
  | ThrowTypeError => ThrowTypeError
  | Normal emails =>
      if negb (ToBoolean emails) || negb (isArray emails) then
        Normal (mkResponse 400
                  (BError (mkErrorBody (js "VALIDATION_ERROR")
                                       (js "Emails array is required"))))
      else
        match emails with
        | VArr entries =>
            with_regex emailRegex
              (results <- array_map batch_entry_once entries ;;
               ret (mkResponse 200
                      (BBatch (mkBatchResult results
                                 (length entries)
                                 (length (filter valid results))
                                 50))))
        | _ => ThrowTypeError
        end
  end.

(** The syntax test on one value: the string conversion, then the literal. *)
Definition syntax_test (v : value) : completion bool :=
  match ToString v with
  | Normal s => Normal (matches s)
  | ThrowTypeError => ThrowTypeError
  end.

(** The result of one entry, from one evaluation of the test. *)
Definition entry_result (e : value) : completion ValidationResult :=
  match syntax_test e with
  | Normal b => Normal (mkValidationResult e b (score b) b)
  | ThrowTypeError => ThrowTypeError
  end.

Fixpoint traverse {A} (g : value -> completion A) (l : list value)
  : completion (list A) :=
  match l with
  | [] => Normal []
  | x :: rest =>
      match g x with
      | Normal y =>
          match traverse g rest with
          | Normal ys => Normal (y :: ys)
          | ThrowTypeError => ThrowTypeError
          end
      | ThrowTypeError => ThrowTypeError
      end
  end.

(** An entry that has a string conversion: every string, number, boolean,
    [null], and the arrays and objects without an own [toString] inside. *)
Definition convertible (e : value) : Prop := ToString e <> ThrowTypeError.

(** The body of the 400 responses. *)
Definition email_required : response :=
  mkResponse 400
    (BError (mkErrorBody (js "VALIDATION_ERROR") (js "Email is required"))).

Definition emails_required : response :=
  mkResponse 400
    (BError (mkErrorBody (js "VALIDATION_ERROR") (js "Emails array is required"))).

(** The emailRegex literal, had it carried the [g] flag. *)
Definition emailRegex_g : RegExp := mkRegExp emailRegex_source true false 0.

(** The segment of [isDisposable]'s words: the substring after the [@],
    read as after the first one, and as after the last one. *)
Definition after_last_at (s : jsstring) : option jsstring :=
  match after_first_at (rev s) with
  | Some _ => Some (rev (local_part (rev s)))
  | None => None
  end.

(** The substring between the first [@] and the next one (or the end). *)
Definition between_ats (s : jsstring) : option jsstring :=
  option_map local_part (after_first_at s).

(** Membership of a lowercased segment in the fixed list. *)
Definition listed (segment : option jsstring) : bool :=
  Disposable.includes Disposable.disposableDomains
    (option_map Disposable.toLowerCase segment).

End Spec.

(* ================================================================== *)
(** ** The matcher *)
(* ================================================================== *)

(* ================================================================== *)
(** ** Further properties, as definitions *)
(* ================================================================== *)

Module SpecMore.
Import Js Regex Routes Spec.

(** The array of the strings [parts]. *)
Definition array_of_strings (parts : list jsstring) : value := VArr (map VStr parts).

(** A Basic Latin letter in upper case. *)
Definition ascii_upper (c : unit16) : unit16 :=
  if ((97 <=? c) && (c <=? 122))%N then (c - 32)%N else c.

(** An environment with every variable that is set to the empty string
    taken as unset. *)
Definition unset_if_empty (v : option jsstring) : option jsstring :=
  match v with
  | Some [] => None
  | _ => v
  end.

Definition without_empty (env : Server.environment) : Server.environment :=
  Server.mkEnv
    (unset_if_empty (Server.PORT env)) (unset_if_empty (Server.HOST env))
    (unset_if_empty (Server.NODE_ENV env)) (unset_if_empty (Server.CORS_ORIGIN env))
    (unset_if_empty (Server.TRUST_PROXY env))
    (unset_if_empty (Server.API_BASE_PATH env))
    (unset_if_empty (Server.API_VERSION env)).

(** The request body [{emails: entries}] and [{email: e}]. *)
Definition emails_body (entries : list value) : value :=
  VObj [(js "emails", VArr entries)].

Definition email_body (e : value) : value := VObj [(js "email", e)].

(** The 200 response of the single route for [e] with test result [b]. *)
Definition validation_response (e : value) (b : bool) (now : jsstring) : response :=
  mkResponse 200
    (BValidation (mkValidationResult e b (score b) b)
       (mkMetadata 10 now)
       (js "Simplified validation - full features coming soon!")).

(** The 200 response of the batch route with results [rs]. *)
Definition batch_response (rs : list ValidationResult) : response :=
  mkResponse 200
    (BBatch (mkBatchResult rs (length rs) (length (filter valid rs)) 50)).

(** What a client may receive from a validation route: a route response
    with status 200 or 400, or the error middleware's response to a
    TypeError, with status 500 and the stack in development mode only. *)
Definition expected_answer (env : Server.environment) (stack : jsstring)
    (a : Server.answer) : Prop :=
  match a with
  | Server.FromRoute r => status r = 200 \/ status r = 400
  | Server.FromErrorHandler r =>
      ErrorMw.status r = VNum (js "500")
      /\ ErrorMw.body_error (ErrorMw.payload r) = VStr (js "TypeError")
      /\ ErrorMw.body_stack (ErrorMw.payload r)
         = if ErrorMw.is_development (Server.NODE_ENV env)
           then Some (VStr stack) else None
  end.

Definition from_error_handler (a : Server.answer) : bool :=
  match a with
  | Server.FromErrorHandler _ => true
  | Server.FromRoute _ => false
  end.

(** The code units of the listed domains: lower-case Basic Latin letters
    other than [k], digits and [.]. *)
Definition domain_char (x : unit16) : bool :=
  ((97 <=? x) && (x <=? 122) && negb (x =? 107)
   || (48 <=? x) && (x <=? 57)
   || (x =? 46))%N.

Definition is_disconnect (e : Lifecycle.event) : bool :=
  match e with
  | Lifecycle.DatabaseDisconnect => true
  | _ => false
  end.

(** There is a database client, and the Redis client, if any, closes. *)
Definition database_reached (m : Lifecycle.modules) : bool :=
  match Lifecycle.dbClient m with
  | Some _ =>
      match Lifecycle.redisClient m with
      | Some r => Lifecycle.closes r
      | None => true
      end
  | None => false
  end.

Definition is_exit (e : Lifecycle.event) : bool :=
  match e with
  | Lifecycle.Exit _ => true
  | _ => false
  end.

(** Every client that is present closes. *)
Definition all_close (m : Lifecycle.modules) : bool :=
  match Lifecycle.redisClient m with
  | Some r => Lifecycle.closes r
  | None => true
  end
  && match Lifecycle.dbClient m with
     | Some d => Lifecycle.closes d
     | None => true
     end.

End SpecMore.

Unset Implicit Arguments.

Module RegexFacts.
Import Js Regex Spec.

Lemma plus_match_succeeds ok k i s :
  succeeds (plus_match ok k) i s <->
  exists a b, s = a ++ b /\ a <> [] /\ forallb ok a = true
              /\ succeeds k (i + length a) b.
Proof.
  unfold succeeds. revert i. induction s as [|c s IH]; intros i; simpl.
  - split.
    + intros [e He]. discriminate.
    + intros (a & b & Hs & Ha & _). destruct a; [congruence | discriminate].
  - destruct (ok c) eqn:Hc.
    + destruct (plus_match ok k (S i) s) as [e|] eqn:Hp.
      * split; [intros _ | intros _; eauto].
        destruct (proj1 (IH (S i))) as (a & b & Hs & Ha & Hok & e' & He'); eauto.
        exists (c :: a), b. simpl. rewrite Hc, Hok.
        repeat split; try congruence.
        exists e'. rewrite <- He'. f_equal. lia.
      * split.
        -- intros [e He]. exists [c], s. simpl. rewrite Hc.
           repeat split; try congruence.
           exists e. rewrite <- He. f_equal. lia.
        -- intros (a & b & Hs & Ha & Hok & e & He).
           destruct a as [|x a]; [congruence|].
           simpl in Hs. injection Hs as -> ->.
           destruct a as [|y a].
           ++ exists e. rewrite <- He. simpl. f_equal. lia.
           ++ exfalso.
              assert (H : exists e0, plus_match ok k (S i) ((y :: a) ++ b) = Some e0).
              { apply IH. exists (y :: a), b.
                simpl in Hok. apply andb_prop in Hok as [_ Hok].
                split; [reflexivity|]. split; [discriminate|].
                split; [exact Hok|].
                exists e. rewrite <- He. f_equal. simpl. lia. }
              destruct H as [e0 H0]. congruence.
    + split.
      * intros [e He]. discriminate.
      * intros (a & b & Hs & Ha & Hok & _).
        destruct a as [|x a]; [congruence|].
        simpl in Hs. injection Hs as -> ->.
        simpl in Hok. rewrite Hc in Hok. discriminate.
Qed.

Lemma succeeds_TStart r i s :
  succeeds (match_here (TStart :: r)) i s <-> i = 0 /\ succeeds (match_here r) i s.
Proof.
  unfold succeeds. simpl. destruct i; simpl.
  - tauto.
  - split; [intros [e He]; discriminate | intros [Hi _]; discriminate].
Qed.

Lemma succeeds_TEnd i s : succeeds (match_here [TEnd]) i s <-> s = [].
Proof.
  unfold succeeds. destruct s; simpl.
  - split; eauto.
  - split; [intros [e He]; discriminate | discriminate].
Qed.

Lemma succeeds_TAtom a r i s :
  succeeds (match_here (TAtom a :: r)) i s <->
  exists c y, s = c :: y /\ atom_matches a c = true
              /\ succeeds (match_here r) (S i) y.
Proof.
  unfold succeeds. destruct s as [|c y]; simpl.
  - split; [intros [e He]; discriminate | intros (c & y & Hs & _); discriminate].
  - destruct (atom_matches a c) eqn:Ha.
    + split; [intros H; exists c, y; auto |].
      intros (c' & y' & Hs & _ & H). injection Hs as <- <-. exact H.
    + split; [intros [e He]; discriminate |].
      intros (c' & y' & Hs & Ha' & _). injection Hs as <- <-. congruence.
Qed.

Lemma succeeds_TPlus a r i s :
  succeeds (match_here (TPlus a :: r)) i s <->
  exists x y, s = x ++ y /\ x <> [] /\ forallb (atom_matches a) x = true
              /\ succeeds (match_here r) (i + length x) y.
Proof. simpl. apply plus_match_succeeds. Qed.

Lemma atom_class c : atom_matches not_space_or_at c = class_unit c.
Proof.
  unfold class_unit, is_at. simpl.
  destruct (is_space c), (c =? at_sign)%N; reflexivity.
Qed.

Lemma forallb_class l :
  forallb (atom_matches not_space_or_at) l = forallb class_unit l.
Proof.
  induction l as [|c l IH]; simpl; [reflexivity|].
  rewrite IH. f_equal. apply atom_class.
Qed.

Lemma achar_matches u c : atom_matches (AChar u) c = true <-> c = u.
Proof. simpl. apply N.eqb_eq. Qed.

(** The literal matches from index 0 exactly the strings that decompose. *)
Lemma match_email_succeeds i s :
  succeeds (match_here emailRegex_source) i s <-> i = 0 /\ decomposes s.
Proof.
  unfold emailRegex_source, decomposes. split.
  - intros H. apply succeeds_TStart in H as [Hi H]. split; [exact Hi|].
    apply succeeds_TPlus in H as (l & r1 & -> & Hl & Hcl & H).
    apply succeeds_TAtom in H as (c1 & r2 & -> & Hc1 & H).
    apply achar_matches in Hc1 as ->.
    apply succeeds_TPlus in H as (d1 & r3 & -> & Hd1 & Hcd1 & H).
    apply succeeds_TAtom in H as (c2 & r4 & -> & Hc2 & H).
    apply achar_matches in Hc2 as ->.
    apply succeeds_TPlus in H as (d2 & r5 & -> & Hd2 & Hcd2 & H).
    apply succeeds_TEnd in H as ->.
    rewrite forallb_class in Hcl, Hcd1, Hcd2.
    exists l, d1, d2. rewrite app_nil_r. auto 10.
  - intros (-> & l & d1 & d2 & -> & Hl & Hd1 & Hd2 & Hcl & Hcd1 & Hcd2).
    apply succeeds_TStart. split; [reflexivity|].
    apply succeeds_TPlus. exists l, (at_sign :: d1 ++ dot :: d2).
    rewrite forallb_class. repeat (split; [solve [auto]|]).
    apply succeeds_TAtom. exists at_sign, (d1 ++ dot :: d2).
    split; [reflexivity|]. split; [apply achar_matches; reflexivity|].
    apply succeeds_TPlus. exists d1, (dot :: d2).
    rewrite forallb_class. repeat (split; [solve [auto]|]).
    apply succeeds_TAtom. exists dot, d2.
    split; [reflexivity|]. split; [apply achar_matches; reflexivity|].
    apply succeeds_TPlus. exists d2, [].
    rewrite forallb_class, app_nil_r. repeat (split; [solve [auto]|]).
    apply succeeds_TEnd. reflexivity.
Qed.

(** A pattern that starts with [^] matches at no later index. *)
Lemma search_anchored r i s : search (TStart :: r) false (S i) s = None.
Proof.
  revert i. induction s as [|c s IH]; intros i; simpl; [reflexivity|].
  apply IH.
Qed.

(** Without the [g] and [y] flags, a call leaves the RegExp object as it is. *)
Lemma exec_unflagged R s :
  global R = false -> sticky R = false -> snd (RegExpBuiltinExec R s) = R.
Proof.
  intros Hg Hy. unfold RegExpBuiltinExec. rewrite Hg, Hy. simpl.
  destruct (search (source R) false 0 s); reflexivity.
Qed.

Lemma exec_emailRegex s : RegExpBuiltinExec emailRegex s = (matches s, emailRegex).
Proof.
  unfold matches. rewrite (surjective_pairing (RegExpBuiltinExec emailRegex s)) at 1.
  f_equal. apply exec_unflagged; reflexivity.
Qed.

Lemma matches_decomposes s : matches s = true <-> decomposes s.
Proof.
  unfold matches, RegExpBuiltinExec. simpl global. simpl sticky. simpl source.
  simpl lastIndex. cbn [orb Nat.ltb Nat.leb skipn].
  assert (Hs : search emailRegex_source false 0 s = match_here emailRegex_source 0 s).
  { destruct s as [|c s]; cbn [search].
    - destruct (match_here emailRegex_source 0 []); reflexivity.
    - destruct (match_here emailRegex_source 0 (c :: s)); [reflexivity|].
      apply search_anchored. }
  rewrite Hs.
  destruct (match_here emailRegex_source 0 s) as [e|] eqn:Hm; simpl.
  - split; [intros _ | reflexivity].
    apply (match_email_succeeds 0 s). exists e. exact Hm.
  - split; [discriminate|]. intros Hd.
    assert (H : succeeds (match_here emailRegex_source) 0 s)
      by (apply match_email_succeeds; auto).
    destruct H as [e He]. congruence.
Qed.

End RegexFacts.

(* ================================================================== *)
(** ** The pattern in words *)
(* ================================================================== *)

Module PatternFacts.
Import Js Regex Spec.

Lemma count_at_app a b : count_at (a ++ b) = count_at a + count_at b.
Proof. unfold count_at. rewrite filter_app, length_app. reflexivity. Qed.

Lemma no_whitespace_app a b :
  no_whitespace (a ++ b) = no_whitespace a && no_whitespace b.
Proof. apply forallb_app. Qed.

Lemma class_unit_parts l :
  forallb class_unit l = true <-> no_whitespace l = true /\ count_at l = 0.
Proof.
  unfold no_whitespace, count_at, class_unit.
  induction l as [|c l IH]; simpl; [tauto|].
  destruct (is_space c), (is_at c); simpl; try tauto;
    split; try discriminate; intros [? ?]; discriminate.
Qed.

Lemma local_part_app l r :
  count_at l = 0 -> local_part (l ++ at_sign :: r) = l.
Proof.
  unfold count_at. induction l as [|c l IH]; simpl; [reflexivity|].
  destruct (is_at c); simpl; [discriminate|].
  intros H. rewrite IH; auto.
Qed.

Lemma after_first_at_app l r :
  count_at l = 0 -> after_first_at (l ++ at_sign :: r) = Some r.
Proof.
  unfold count_at. induction l as [|c l IH]; simpl; [reflexivity|].
  destruct (is_at c); simpl; [discriminate|]. exact IH.
Qed.

Lemma count_at_local_part s : count_at (local_part s) = 0.
Proof.
  unfold count_at. induction s as [|c s IH]; simpl; [reflexivity|].
  destruct (is_at c) eqn:Hc; simpl; [reflexivity|]. rewrite Hc. exact IH.
Qed.

(** A string is its local part, followed by [@] and the rest when there is
    an [@]. *)
Lemma split_first_at s :
  s = local_part s ++ match after_first_at s with
                      | Some d => at_sign :: d
                      | None => []
                      end.
Proof.
  induction s as [|c s IH]; simpl; [reflexivity|].
  destruct (is_at c) eqn:Hc; simpl.
  - apply N.eqb_eq in Hc. subst c. reflexivity.
  - f_equal. exact IH.
Qed.

Lemma is_dot_eq c : is_dot c = true <-> c = dot.
Proof. apply N.eqb_eq. Qed.

Lemma inner_dot_split d :
  has_inner_dot d = true <->
  exists d1 d2, d = d1 ++ dot :: d2 /\ d1 <> [] /\ d2 <> [].
Proof.
  unfold has_inner_dot. split.
  - destruct d as [|x t]; [discriminate|]. intros H.
    change (existsb is_dot (removelast t) = true) in H.
    apply existsb_exists in H as (c & Hin & Hc).
    apply is_dot_eq in Hc. subst c.
    apply in_split in Hin as (p & q & Hpq).
    assert (Ht : t <> []) by (intros ->; destruct p; discriminate).
    pose proof (app_removelast_last 0%N Ht) as Heq. rewrite Hpq in Heq.
    exists (x :: p), (q ++ [last t 0%N]). split.
    + simpl. rewrite <- app_assoc in Heq. simpl in Heq. congruence.
    + split; [discriminate | destruct q; discriminate].
  - intros (d1 & d2 & -> & H1 & H2).
    destruct d1 as [|x d1]; [congruence|]. simpl.
    rewrite removelast_app by discriminate.
    rewrite existsb_app. apply orb_true_iff. right.
    destruct d2 as [|y d2]; [congruence|].
    change (removelast (dot :: y :: d2)) with (dot :: removelast (y :: d2)).
    cbn [existsb]. unfold is_dot at 1. rewrite N.eqb_refl. reflexivity.
Qed.

Lemma nonempty_true s : nonempty s = true <-> s <> [].
Proof. destruct s; simpl; split; congruence. Qed.

(** The strings that decompose are the strings of [syntax_pattern]. *)
Lemma decomposes_pattern s : decomposes s <-> syntax_pattern s = true.
Proof.
  unfold decomposes, syntax_pattern. split.
  - intros (l & d1 & d2 & -> & Hl & Hd1 & Hd2 & Hcl & Hc1 & Hc2).
    apply class_unit_parts in Hcl as [Hwl Hal].
    apply class_unit_parts in Hc1 as [Hw1 Ha1].
    apply class_unit_parts in Hc2 as [Hw2 Ha2].
    unfold domain_part.
    rewrite local_part_app, after_first_at_app by exact Hal.
    change (l ++ at_sign :: d1 ++ dot :: d2)
      with (l ++ [at_sign] ++ d1 ++ [dot] ++ d2).
    rewrite !count_at_app, !no_whitespace_app, Hal, Ha1, Ha2, Hwl, Hw1, Hw2.
    simpl. apply nonempty_true in Hl. rewrite Hl. simpl.
    apply (inner_dot_split (d1 ++ dot :: d2)). eauto.
  - intros H.
    apply andb_prop in H as [H Hdot]. apply andb_prop in H as [H Hloc].
    apply andb_prop in H as [Hcount Hws]. apply Nat.eqb_eq in Hcount.
    apply nonempty_true in Hloc.
    pose proof (split_first_at s) as Hs.
    pose proof (count_at_local_part s) as Hal.
    unfold domain_part in Hdot.
    destruct (after_first_at s) as [d|]; [|discriminate].
    apply inner_dot_split in Hdot as (d1 & d2 & -> & Hd1 & Hd2).
    rewrite Hs in Hcount, Hws.
    change (local_part s ++ at_sign :: d1 ++ dot :: d2)
      with (local_part s ++ [at_sign] ++ d1 ++ [dot] ++ d2) in Hcount, Hws.
    rewrite !count_at_app in Hcount. rewrite !no_whitespace_app in Hws.
    apply andb_prop in Hws as [Hwl Hws]. apply andb_prop in Hws as [_ Hws].
    apply andb_prop in Hws as [Hw1 Hws]. apply andb_prop in Hws as [_ Hw2].
    change (count_at [at_sign]) with 1 in Hcount.
    exists (local_part s), d1, d2.
    split; [exact Hs|]. repeat (split; [assumption|]).
    split; [|split]; apply class_unit_parts; split; auto; lia.
Qed.

End PatternFacts.

(* ================================================================== *)
(** ** The routes *)
(* ================================================================== *)

Module RouteFacts.
Import Js Regex Routes Spec RegexFacts.

Lemma regex_test_emailRegex v :
  regex_test v emailRegex =
  match syntax_test v with
  | Normal b => Normal (b, emailRegex)
  | ThrowTypeError => ThrowTypeError
  end.
Proof.
  unfold regex_test, test, syntax_test.
  destruct (ToString v) as [str|]; [|reflexivity].
  rewrite exec_emailRegex. reflexivity.
Qed.

Lemma batch_entry_emailRegex e :
  batch_entry e emailRegex =
  match entry_result e with
  | Normal r => Normal (r, emailRegex)
  | ThrowTypeError => ThrowTypeError
  end.
Proof.
  unfold batch_entry, bind, entry_result. rewrite regex_test_emailRegex.
  destruct (syntax_test e) as [b|] eqn:E; [|reflexivity].
  rewrite regex_test_emailRegex, E.
  rewrite regex_test_emailRegex, E. reflexivity.
Qed.

Lemma batch_entry_once_emailRegex e :
  batch_entry_once e emailRegex =
  match entry_result e with
  | Normal r => Normal (r, emailRegex)
  | ThrowTypeError => ThrowTypeError
  end.
Proof.
  unfold batch_entry_once, bind, entry_result. rewrite regex_test_emailRegex.
  destruct (syntax_test e) as [b|]; reflexivity.
Qed.

(** A callback that leaves the RegExp object as it found it maps like a
    pure function. *)
Lemma array_map_pure A (f : value -> M A) (g : value -> completion A) R :
  (forall e, f e R = match g e with
                     | Normal r => Normal (r, R)
                     | ThrowTypeError => ThrowTypeError
                     end) ->
  forall l,
    array_map f l R = match traverse g l with
                      | Normal rs => Normal (rs, R)
                      | ThrowTypeError => ThrowTypeError
                      end.
Proof.
  intros Hf. induction l as [|x l IH]; simpl; [reflexivity|].
  unfold bind at 1. rewrite Hf.
  destruct (g x) as [y|]; [|reflexivity].
  unfold bind at 1. rewrite IH.
  destruct (traverse g l) as [ys|]; reflexivity.
Qed.

Lemma traverse_convertible l :
  Forall convertible l ->
  exists rs, traverse entry_result l = Normal rs
             /\ Forall2 (fun e r => entry_result e = Normal r) l rs.
Proof.
  induction 1 as [|e l He _ IH]; simpl.
  - exists []. split; [reflexivity | constructor].
  - destruct IH as (rs & Hrs & Hall). rewrite Hrs.
    unfold convertible in He.
    destruct (entry_result e) as [r|] eqn:Hr.
    + exists (r :: rs). split; [reflexivity|]. constructor; assumption.
    + unfold entry_result, syntax_test in Hr.
      destruct (ToString e); [discriminate | congruence].
Qed.

Lemma traverse_results l rs :
  traverse entry_result l = Normal rs ->
  Forall2 (fun e r => entry_result e = Normal r) l rs.
Proof.
  revert rs. induction l as [|e l IH]; simpl; intros rs H.
  - injection H as <-. constructor.
  - destruct (entry_result e) as [r|] eqn:Hr; [|discriminate].
    destruct (traverse entry_result l) as [ys|]; [|discriminate].
    injection H as <-. constructor; auto.
Qed.

Lemma entry_result_fields e r :
  entry_result e = Normal r ->
  email r = e /\ syntax_test e = Normal (valid r)
  /\ quality_score r = score (valid r) /\ checks_syntax_valid r = valid r.
Proof.
  unfold entry_result. destruct (syntax_test e) as [b|]; [|discriminate].
  intros H. injection H as <-. simpl. auto.
Qed.

(** The batch route on an array. *)
Lemma batch_array body entries :
  destructure body (js "emails") = Normal (VArr entries) ->
  batch body =
  match traverse entry_result entries with
  | Normal rs =>
      Normal (mkResponse 200
                (BBatch (mkBatchResult rs (length entries)
                           (length (filter valid rs)) 50)))
  | ThrowTypeError => ThrowTypeError
  end.
Proof.
  intros Hd. unfold batch. rewrite Hd. simpl.
  unfold with_regex, bind.
  rewrite (array_map_pure _ batch_entry entry_result emailRegex
             batch_entry_emailRegex).
  destruct (traverse entry_result entries); reflexivity.
Qed.

(** The single route on a truthy [email]. *)
Lemma validate_truthy body now e :
  destructure body (js "email") = Normal e ->
  ToBoolean e = true ->
  validate body now =
  match syntax_test e with
  | Normal b =>
      Normal (mkResponse 200
                (BValidation (mkValidationResult e b (score b) b)
                   (mkMetadata 10 now)
                   (js "Simplified validation - full features coming soon!")))
  | ThrowTypeError => ThrowTypeError
  end.
Proof.
  intros Hd Ht. unfold validate. rewrite Hd, Ht. simpl.
  unfold with_regex, bind. rewrite regex_test_emailRegex.
  destruct (syntax_test e); reflexivity.
Qed.

Lemma validate_falsy body now e :
  destructure body (js "email") = Normal e ->
  ToBoolean e = false ->
  validate body now = Normal email_required.
Proof.
  intros Hd Ht. unfold validate. rewrite Hd, Ht. reflexivity.
Qed.

Lemma score_consistent e b : consistent (mkValidationResult e b (score b) b).
Proof.
  unfold consistent. simpl. destruct b; simpl.
  - repeat split; reflexivity.
  - repeat split; intros; try reflexivity; discriminate.
Qed.

Lemma batch_not_array body v :
  destructure body (js "emails") = Normal v ->
  isArray v = false ->
  batch body = Normal emails_required.
Proof.
  intros Hd Hv. unfold batch. rewrite Hd, Hv. simpl negb.
  rewrite orb_true_r. reflexivity.
Qed.

Lemma Forall2_In_result (l : list value) rs r :
  Forall2 (fun e r => entry_result e = Normal r) l rs ->
  In r rs -> exists e, entry_result e = Normal r.
Proof.
  induction 1 as [|e r0 l rs He _ IH]; simpl; [tauto|].
  intros [<- | Hin]; eauto.
Qed.

Lemma Forall2_emails (l : list value) rs :
  Forall2 (fun e r => entry_result e = Normal r) l rs ->
  map email rs = l.
Proof.
  induction 1 as [|e r l rs He _ IH]; simpl; [reflexivity|].
  apply entry_result_fields in He as [He _]. congruence.
Qed.

Lemma Forall2_nth (l : list value) rs i e :
  Forall2 (fun e r => entry_result e = Normal r) l rs ->
  nth_error l i = Some e ->
  exists r, nth_error rs i = Some r /\ entry_result e = Normal r.
Proof.
  intros H. revert i. induction H as [|e0 r0 l rs He _ IH]; intros i Hi.
  - destruct i; discriminate.
  - destruct i as [|i]; simpl in *.
    + injection Hi as <-. eauto.
    + apply IH. exact Hi.
Qed.

Lemma count_valid rs :
  length (filter valid rs) = count_occ bool_dec (map valid rs) true.
Proof.
  induction rs as [|r rs IH]; simpl; [reflexivity|].
  destruct (valid r); simpl.
  - destruct (bool_dec true true); [|congruence]. rewrite IH. reflexivity.
  - destruct (bool_dec false true); [discriminate|]. exact IH.
Qed.

Lemma traverse_throws l :
  traverse entry_result l = ThrowTypeError <->
  Exists (fun e => ToString e = ThrowTypeError) l.
Proof.
  induction l as [|e l IH]; simpl.
  - split; [discriminate | intros H; inversion H].
  - unfold entry_result at 1, syntax_test at 1.
    destruct (ToString e) as [str|] eqn:Hs.
    + destruct (traverse entry_result l) as [ys|].
      * split; [discriminate|]. intros H. inversion H; subst.
        -- congruence.
        -- apply IH in H1. discriminate.
      * split; [intros _ | reflexivity]. apply Exists_cons_tl. apply IH. reflexivity.
    + split; [intros _ | reflexivity]. apply Exists_cons_hd. exact Hs.
Qed.

Lemma batch_convertible body entries :
  destructure body (js "emails") = Normal (VArr entries) ->
  Forall convertible entries ->
  exists rs,
    batch body
    = Normal (mkResponse 200
                (BBatch (mkBatchResult rs (length entries)
                           (length (filter valid rs)) 50)))
    /\ Forall2 (fun e r => entry_result e = Normal r) entries rs.
Proof.
  intros Hd Hall. rewrite (batch_array _ _ Hd).
  destruct (traverse_convertible _ Hall) as (rs & Hrs & H2). rewrite Hrs.
  exists rs. split; [reflexivity | exact H2].
Qed.

Lemma destructure_single key e :
  destructure (VObj [(key, e)]) key = Normal e.
Proof.
  simpl. unfold jsstring_eqb.
  destruct (list_eq_dec N.eq_dec key key); [reflexivity | congruence].
Qed.

Lemma syntax_pattern_stated s : syntax_pattern s = true -> stated_pattern s = true.
Proof.
  unfold syntax_pattern, stated_pattern. intros H.
  apply andb_prop in H as [H Hdot]. apply andb_prop in H as [H _].
  rewrite H. simpl.
  apply PatternFacts.inner_dot_split in Hdot as (d1 & d2 & -> & _ & _).
  rewrite existsb_app. apply orb_true_iff. right.
  cbn [existsb]. unfold is_dot at 1. rewrite N.eqb_refl. reflexivity.
Qed.

End RouteFacts.

(* ================================================================== *)
(** ** Properties of the validation routes *)
(* ================================================================== *)

Module RouteProperties.
Import Js Regex Routes Spec RegexFacts PatternFacts RouteFacts.

(** C1, as stated, fails: ["@b.com"] has exactly one [@], no whitespace and
    a [.] after the [@], and the single route answers [valid == false]. *)
Lemma validate_empty_local_part :
  stated_pattern (js "@b.com") = true
  /\ validate (VObj [(js "email", VStr (js "@b.com"))]) (js "2024-01-01T00:00:00.000Z")
     = Normal (mkResponse 200
                 (BValidation
                    (mkValidationResult (VStr (js "@b.com")) false 0%Q false)
                    (mkMetadata 10 (js "2024-01-01T00:00:00.000Z"))
                    (js "Simplified validation - full features coming soon!"))).
Proof. split; reflexivity. Qed.

(** C1 (amended): for every non-empty input string the single route answers
    200 with [valid == true] exactly when the string has exactly one [@],
    no whitespace, a non-empty part before the [@] and, in the part after
    it, a [.] that is neither its first nor its last character; a string
    that fails the stated pattern gets [valid == false]. *)
Theorem validate_valid_iff_syntax_pattern body now s :
  destructure body (js "email") = Normal (VStr s) ->
  s <> [] ->
  exists r,
    validate body now
    = Normal (mkResponse 200
                (BValidation r (mkMetadata 10 now)
                   (js "Simplified validation - full features coming soon!")))
    /\ email r = VStr s
    /\ (valid r = true <-> syntax_pattern s = true)
    /\ (stated_pattern s = false -> valid r = false).
Proof.
  intros Hd Hs.
  assert (Ht : ToBoolean (VStr s) = true) by (destruct s; [congruence | reflexivity]).
  rewrite (validate_truthy _ now _ Hd Ht). unfold syntax_test. simpl ToString.
  eexists. split; [reflexivity|]. simpl.
  assert (Hiff : matches s = true <-> syntax_pattern s = true).
  { rewrite matches_decomposes. apply decomposes_pattern. }
  split; [reflexivity|]. split; [exact Hiff|].
  intros Hst. destruct (matches s); [|reflexivity].
  assert (Hp : syntax_pattern s = true) by (apply Hiff; reflexivity).
  apply syntax_pattern_stated in Hp. congruence.
Qed.

Lemma validate_valid_iff_syntax_pattern_witness :
  destructure (VObj [(js "email", VStr (js "a@b.com"))]) (js "email")
  = Normal (VStr (js "a@b.com"))
  /\ js "a@b.com" <> []
  /\ exists r,
       validate (VObj [(js "email", VStr (js "a@b.com"))]) (js "now")
       = Normal (mkResponse 200
                   (BValidation r (mkMetadata 10 (js "now"))
                      (js "Simplified validation - full features coming soon!")))
       /\ email r = VStr (js "a@b.com")
       /\ (valid r = true <-> syntax_pattern (js "a@b.com") = true)
       /\ (stated_pattern (js "a@b.com") = false -> valid r = false).
Proof.
  split; [reflexivity|]. split; [discriminate|].
  apply validate_valid_iff_syntax_pattern; [reflexivity | discriminate].
Defined.

Example validate_examples :
  matches (js "not-an-email") = false /\ matches (js "a@b") = false
  /\ matches (js "a@b.com") = true /\ matches (js "a@.com") = false
  /\ matches (js "a@b.") = false /\ matches (js "a b@c.d") = false
  /\ matches (js "a@b@c.d") = false.
Proof. repeat split; reflexivity. Qed.

(** C2: every validation result sent by the single route or inside a batch
    response has [quality_score] 0.8 when [valid] and 0 otherwise, and
    [checks.syntax.valid] equal to [valid]. *)
Theorem produced_consistent r : produced r -> consistent r.
Proof.
  intros [body now m n H | body b H Hin].
  - destruct (destructure body (js "email")) as [e|] eqn:Hd;
      [| unfold validate in H; rewrite Hd in H; discriminate].
    destruct (ToBoolean e) eqn:Ht.
    + rewrite (validate_truthy _ now _ Hd Ht) in H.
      destruct (syntax_test e) as [v|]; [|discriminate].
      injection H as <- _ _. apply score_consistent.
    + rewrite (validate_falsy _ now _ Hd Ht) in H. discriminate.
  - destruct (destructure body (js "emails")) as [v|] eqn:Hd;
      [| unfold batch in H; rewrite Hd in H; discriminate].
    destruct (isArray v) eqn:Hv.
    + destruct v; try discriminate.
      rewrite (batch_array _ _ Hd) in H.
      destruct (traverse entry_result elements) as [rs|] eqn:Ht; [|discriminate].
      injection H as <-. simpl in Hin.
      apply traverse_results in Ht.
      destruct (Forall2_In_result _ _ _ Ht Hin) as [e He].
      unfold entry_result in He. destruct (syntax_test e) as [v|]; [|discriminate].
      injection He as <-. apply score_consistent.
    + rewrite (batch_not_array _ _ Hd Hv) in H. discriminate.
Qed.

Lemma produced_consistent_witness :
  produced (mkValidationResult (VStr (js "a@b.com")) true 0.8%Q true)
  /\ consistent (mkValidationResult (VStr (js "a@b.com")) true 0.8%Q true).
Proof.
  assert (H : produced (mkValidationResult (VStr (js "a@b.com")) true 0.8%Q true)).
  { apply (@produced_validate _
             (VObj [(js "email", VStr (js "a@b.com"))]) (js "now")
             (mkMetadata 10 (js "now"))
             (js "Simplified validation - full features coming soon!")).
    reflexivity. }
  split; [exact H | apply (produced_consistent _ H)].
Defined.

(** C3: for an array of entries that have a string conversion (every array
    of strings), the batch route answers 200 with one result per entry, in
    the order of the input: [results[i].email] is the i-th entry,
    [results[i].valid] is the syntax test on that entry (the value the
    single route gives it whenever it answers with a result), [total] is
    the length of the input and [valid_count] the number of results with
    [valid == true]. *)
Theorem batch_results_in_order body entries :
  destructure body (js "emails") = Normal (VArr entries) ->
  Forall convertible entries ->
  exists b,
    batch body = Normal (mkResponse 200 (BBatch b))
    /\ length (results b) = length entries
    /\ map email (results b) = entries
    /\ (forall i e,
          nth_error entries i = Some e ->
          exists r,
            nth_error (results b) i = Some r
            /\ email r = e
            /\ syntax_test e = Normal (valid r)
            /\ forall now r' m n,
                 validate (VObj [(js "email", e)]) now
                 = Normal (mkResponse 200 (BValidation r' m n)) ->
                 valid r' = valid r)
    /\ total b = length entries
    /\ valid_count b = count_occ bool_dec (map valid (results b)) true.
Proof.
  intros Hd Hall.
  destruct (batch_convertible _ _ Hd Hall) as (rs & Hrs & H2). rewrite Hrs.
  eexists. split; [reflexivity|]. simpl.
  split; [symmetry; apply (Forall2_length H2)|].
  split; [apply (Forall2_emails _ _ H2)|].
  split; [| split; [reflexivity | apply count_valid]].
  intros i e Hi.
  destruct (Forall2_nth _ _ _ _ H2 Hi) as (r & Hr & He).
  apply entry_result_fields in He as (Hemail & Htest & _).
  exists r. repeat (split; [assumption|]).
  intros now r' m n Hv.
  pose proof (destructure_single (js "email") e) as Hde.
  destruct (ToBoolean e) eqn:Ht.
  - rewrite (validate_truthy _ now _ Hde Ht), Htest in Hv.
    injection Hv as <- _ _. reflexivity.
  - rewrite (validate_falsy _ now _ Hde Ht) in Hv. discriminate.
Qed.

Lemma batch_results_in_order_witness :
  exists b,
    batch (VObj [(js "emails", VArr [VStr (js "a@b.com"); VStr (js "bad")])])
    = Normal (mkResponse 200 (BBatch b))
    /\ length (results b) = 2
    /\ map email (results b) = [VStr (js "a@b.com"); VStr (js "bad")]
    /\ total b = 2
    /\ valid_count b = count_occ bool_dec (map valid (results b)) true.
Proof.
  destruct (batch_results_in_order
              (VObj [(js "emails", VArr [VStr (js "a@b.com"); VStr (js "bad")])])
              [VStr (js "a@b.com"); VStr (js "bad")])
    as (b & Hb & Hlen & Hmap & _ & Htotal & Hcount).
  - reflexivity.
  - repeat constructor; discriminate.
  - exists b. auto.
Defined.

Example batch_two_entries :
  batch (VObj [(js "emails", VArr [VStr (js "a@b.com"); VStr (js "bad")])])
  = Normal (mkResponse 200
              (BBatch (mkBatchResult
                         [ mkValidationResult (VStr (js "a@b.com")) true 0.8%Q true;
                           mkValidationResult (VStr (js "bad")) false 0%Q false ]
                         2 1 50))).
Proof. reflexivity. Qed.

(** C4: when the body has no [email] field, the single route answers 400
    with [{error: "VALIDATION_ERROR", message: "Email is required"}], and
    no validation result. *)
Theorem validate_missing_email body now :
  destructure body (js "email") = Normal VUndefined ->
  validate body now
  = Normal (mkResponse 400
              (BError (mkErrorBody (js "VALIDATION_ERROR")
                                   (js "Email is required"))))
  /\ forall r m n,
       validate body now <> Normal (mkResponse 200 (BValidation r m n)).
Proof.
  intros Hd. rewrite (validate_falsy _ now _ Hd eq_refl).
  split; [reflexivity | discriminate].
Qed.

Lemma validate_missing_email_witness :
  destructure (VObj []) (js "email") = Normal VUndefined
  /\ validate (VObj []) (js "now")
     = Normal (mkResponse 400
                 (BError (mkErrorBody (js "VALIDATION_ERROR")
                                      (js "Email is required")))).
Proof.
  split; [reflexivity|].
  apply (validate_missing_email (VObj []) (js "now")). reflexivity.
Defined.

(** The batch route answers 400 exactly when [emails] is not an array; an
    array of entries that all have a string conversion is answered 200, and
    an array with an entry that has none makes the handler throw. *)
Lemma batch_rejects_iff_not_array body v :
  destructure body (js "emails") = Normal v ->
  (batch body = Normal emails_required <-> isArray v = false)
  /\ (forall entries, v = VArr entries ->
        (Forall convertible entries ->
         exists b, batch body = Normal (mkResponse 200 (BBatch b)))
        /\ (Exists (fun e => ToString e = ThrowTypeError) entries ->
            batch body = ThrowTypeError)).
Proof.
  intros Hd. split.
  - split.
    + intros H. destruct v; try reflexivity.
      rewrite (batch_array _ _ Hd) in H.
      destruct (traverse entry_result elements); discriminate.
    + apply (batch_not_array _ _ Hd).
  - intros entries ->. split.
    + intros Hall.
      destruct (batch_convertible _ _ Hd Hall) as (rs & Hrs & _). eauto.
    + intros Hex. rewrite (batch_array _ _ Hd).
      apply traverse_throws in Hex. rewrite Hex. reflexivity.
Qed.

(** C5: the body [{"emails": [{"toString": 0}]}] carries an array, and the
    batch route neither answers 200 nor marks the entry invalid: the string
    conversion of the entry throws a TypeError out of the handler. *)
Theorem batch_throws_on_entry_without_conversion :
  isArray (VArr [VObj [(js "toString", VNum (js "0"))]]) = true
  /\ batch (VObj [(js "emails", VArr [VObj [(js "toString", VNum (js "0"))]])])
     = ThrowTypeError.
Proof. split; reflexivity. Qed.

(** C8: computing the test once per entry and reusing the boolean for the
    three fields gives the same response as the three evaluations of the
    source, on every request body. *)
Theorem batch_once_same body : batch body = batch_once body.
Proof.
  unfold batch, batch_once.
  destruct (destructure body (js "emails")) as [v|]; [|reflexivity].
  destruct (negb (ToBoolean v) || negb (isArray v)); [reflexivity|].
  destruct v; try reflexivity.
  unfold with_regex, bind.
  rewrite (array_map_pure _ batch_entry entry_result emailRegex
             batch_entry_emailRegex).
  rewrite (array_map_pure _ batch_entry_once entry_result emailRegex
             batch_entry_once_emailRegex).
  reflexivity.
Qed.

(** The three evaluations agree because the literal has no [g] flag: on a
    RegExp object with that flag they do not. *)
Example global_flag_entries_differ :
  with_regex emailRegex_g (batch_entry (VStr (js "a@b.com")))
  = Normal (mkValidationResult (VStr (js "a@b.com")) true 0%Q true)
  /\ with_regex emailRegex_g (batch_entry_once (VStr (js "a@b.com")))
     = Normal (mkValidationResult (VStr (js "a@b.com")) true 0.8%Q true).
Proof. split; reflexivity. Qed.

(** C9: an [email] field that is present but falsy (the empty string, 0,
    [false], [null]) is answered like a missing field: 400 with
    [{error: "VALIDATION_ERROR", message: "Email is required"}], and no
    validation result. *)
Theorem validate_falsy_email_rejected body now e :
  destructure body (js "email") = Normal e ->
  In e [VStr []; VNum (js "0"); VBool false; VNull] ->
  validate body now
  = Normal (mkResponse 400
              (BError (mkErrorBody (js "VALIDATION_ERROR")
                                   (js "Email is required"))))
  /\ validate body now = validate (VObj []) now.
Proof.
  intros Hd Hin.
  assert (Ht : ToBoolean e = false).
  { simpl in Hin. destruct Hin as [<- | [<- | [<- | [<- | []]]]]; reflexivity. }
  rewrite (validate_falsy _ now _ Hd Ht). split; reflexivity.
Qed.

Lemma validate_falsy_email_rejected_witness :
  destructure (VObj [(js "email", VStr [])]) (js "email") = Normal (VStr [])
  /\ In (VStr []) [VStr []; VNum (js "0"); VBool false; VNull]
  /\ validate (VObj [(js "email", VStr [])]) (js "now")
     = Normal (mkResponse 400
                 (BError (mkErrorBody (js "VALIDATION_ERROR")
                                      (js "Email is required")))).
Proof.
  split; [reflexivity|]. split; [left; reflexivity|].
  apply (validate_falsy_email_rejected
           (VObj [(js "email", VStr [])]) (js "now") (VStr []));
    [reflexivity | left; reflexivity].
Defined.

(** C10: the batch route accepts the empty array: 200 with no results,
    [total] 0 and [valid_count] 0. *)
Theorem batch_empty_array body :
  destructure body (js "emails") = Normal (VArr []) ->
  batch body = Normal (mkResponse 200 (BBatch (mkBatchResult [] 0 0 50)))
  /\ batch body <> Normal emails_required.
Proof.
  intros Hd. rewrite (batch_array _ _ Hd). simpl.
  split; [reflexivity | discriminate].
Qed.

Lemma batch_empty_array_witness :
  destructure (VObj [(js "emails", VArr [])]) (js "emails") = Normal (VArr [])
  /\ batch (VObj [(js "emails", VArr [])])
     = Normal (mkResponse 200 (BBatch (mkBatchResult [] 0 0 50))).
Proof.
  split; [reflexivity|].
  apply (batch_empty_array (VObj [(js "emails", VArr [])])). reflexivity.
Defined.

End RouteProperties.

(* ================================================================== *)
(** ** Properties of the error-handling middleware *)
(* ================================================================== *)

Module ErrorProperties.
Import Js ErrorMw.

Lemma is_development_iff env :
  is_development env = true <-> env = Some (js "development").
Proof.
  unfold is_development, jsstring_eqb. destruct env as [e|].
  - destruct (list_eq_dec N.eq_dec e (js "development")) as [->|Hne].
    + tauto.
    + split; [discriminate | intros H; injection H; tauto].
  - split; discriminate.
Qed.

(** C6: the response status is the error's [statusCode] when it is set
    (truthy, as every HTTP status code is), else its [status] when that is
    set, else 500; the error kind is the error's [name] when it has one and
    [INTERNAL_SERVER_ERROR] otherwise; the body has a [stack] field exactly
    in development mode, hence never in production. *)
Theorem errorHandler_response env err req :
  let r := errorHandler env err req in
  (ToBoolean (err_statusCode err) = true -> status r = err_statusCode err)
  /\ (ToBoolean (err_statusCode err) = false ->
      ToBoolean (err_status err) = true -> status r = err_status err)
  /\ (ToBoolean (err_statusCode err) = false ->
      ToBoolean (err_status err) = false -> status r = VNum (js "500"))
  /\ (ToBoolean (err_name err) = true -> body_error (payload r) = err_name err)
  /\ (ToBoolean (err_name err) = false ->
      body_error (payload r) = VStr (js "INTERNAL_SERVER_ERROR"))
  /\ (body_stack (payload r) <> None <-> env = Some (js "development"))
  /\ (env = Some (js "production") -> body_stack (payload r) = None)
  /\ (forall stack, body_stack (payload r) = Some stack -> stack = err_stack err).
Proof.
  unfold errorHandler, or_else. simpl.
  split; [intros H; rewrite H; cbn iota; rewrite H; reflexivity|].
  split; [intros H1 H2; rewrite H1; cbn iota; rewrite H2; reflexivity|].
  split; [intros H1 H2; rewrite H1; cbn iota; rewrite H2; reflexivity|].
  split; [intros ->; reflexivity|].
  split; [intros ->; reflexivity|].
  pose proof (is_development_iff env) as Hdev.
  destruct (is_development env).
  - split; [split; [intros _; apply Hdev; reflexivity | discriminate]|].
    split; [|intros stack H; injection H as <-; reflexivity].
    intros ->. destruct Hdev as [Hdev _]. specialize (Hdev eq_refl). discriminate.
  - split; [split; [congruence|] |].
    + intros H. apply Hdev in H. discriminate.
    + split; [reflexivity | discriminate].
Qed.

Example errorHandler_examples :
  let request := mkRequest (js "/api/v1/validate") (js "POST") in
  let not_found :=
    mkError (VNum (js "404")) VUndefined (VStr (js "NotFoundError"))
            (VStr (js "missing")) (VStr (js "trace")) in
  let bare := mkError VUndefined VUndefined VUndefined VUndefined VUndefined in
  status (errorHandler (Some (js "production")) not_found request) = VNum (js "404")
  /\ payload (errorHandler (Some (js "production")) not_found request)
     = mkBody (VStr (js "NotFoundError")) (VStr (js "missing")) None
  /\ payload (errorHandler (Some (js "development")) not_found request)
     = mkBody (VStr (js "NotFoundError")) (VStr (js "missing"))
              (Some (VStr (js "trace")))
  /\ status (errorHandler None bare request) = VNum (js "500")
  /\ payload (errorHandler None bare request)
     = mkBody (VStr (js "INTERNAL_SERVER_ERROR"))
              (VStr (js "An unexpected error occurred")) None.
Proof. repeat split; reflexivity. Qed.

End ErrorProperties.

(* ================================================================== *)
(** ** Properties of the disposable-domain checker *)
(* ================================================================== *)

Module DisposableProperties.
Import Js Spec Disposable PatternFacts.

Lemma split_first s :
  split at_sign s
  = local_part s :: match after_first_at s with
                    | Some d => split at_sign d
                    | None => []
                    end.
Proof.
  induction s as [|c s IH]; simpl; [reflexivity|].
  unfold is_at. destruct (c =? at_sign)%N; [reflexivity|].
  rewrite IH. reflexivity.
Qed.

Lemma split_second s : nth_error (split at_sign s) 1 = between_ats s.
Proof.
  rewrite split_first. unfold between_ats. simpl.
  destruct (after_first_at s) as [d|]; simpl; [|reflexivity].
  rewrite split_first. reflexivity.
Qed.

Lemma jsstring_eqb_eq a b : jsstring_eqb a b = true <-> a = b.
Proof.
  unfold jsstring_eqb. destruct (list_eq_dec N.eq_dec a b); split;
    congruence.
Qed.

Lemma includes_In l d : includes l (Some d) = true <-> In d l.
Proof.
  simpl. rewrite existsb_exists. split.
  - intros (x & Hin & Hx). apply jsstring_eqb_eq in Hx. congruence.
  - intros Hin. exists d. split; [exact Hin | apply jsstring_eqb_eq; reflexivity].
Qed.

Lemma count_at_after s :
  count_at s = match after_first_at s with
               | Some d => S (count_at d)
               | None => 0
               end.
Proof.
  unfold count_at. induction s as [|c s IH]; simpl; [reflexivity|].
  destruct (is_at c); simpl; [reflexivity | exact IH].
Qed.

Lemma local_part_no_at d : count_at d = 0 -> local_part d = d.
Proof.
  unfold count_at. induction d as [|c d IH]; simpl; [reflexivity|].
  destruct (is_at c); simpl; [discriminate|]. intros H. rewrite IH; auto.
Qed.

(** C7, as stated, fails: on ["a@tempmail.com@evil.com"] the checker answers
    [true], and neither the substring after the first [@] nor the one after
    the last [@] is in the list. *)
Lemma isDisposable_second_segment :
  isDisposable (js "a@tempmail.com@evil.com") = true
  /\ after_first_at (js "a@tempmail.com@evil.com") = Some (js "tempmail.com@evil.com")
  /\ listed (after_first_at (js "a@tempmail.com@evil.com")) = false
  /\ after_last_at (js "a@tempmail.com@evil.com") = Some (js "evil.com")
  /\ listed (after_last_at (js "a@tempmail.com@evil.com")) = false.
Proof. repeat split; reflexivity. Qed.

(** C7 (amended): [isDisposable] answers [true] exactly when the substring
    between the first [@] and the next [@] (or the end of the input),
    lowercased, is in the fixed list of four domains; an input with no [@]
    is never reported disposable, and with exactly one [@] that substring
    is the whole part after the [@]. *)
Theorem isDisposable_between_ats s :
  (isDisposable s = true <->
   exists segment, between_ats s = Some segment
                   /\ In (toLowerCase segment)
                         [ js "tempmail.com"; js "guerrillamail.com";
                           js "10minutemail.com"; js "throwaway.email" ])
  /\ (count_at s = 0 -> isDisposable s = false)
  /\ (count_at s = 1 -> between_ats s = after_first_at s).
Proof.
  unfold isDisposable. rewrite split_second.
  pose proof (count_at_after s) as Hc. unfold between_ats.
  destruct (after_first_at s) as [d|]; simpl option_map.
  - split; [| split].
    + rewrite includes_In. split.
      * intros H. exists (local_part d). auto.
      * intros (seg & Hseg & Hin). injection Hseg as <-. exact Hin.
    + intros H0. rewrite H0 in Hc. discriminate.
    + intros H1. rewrite H1 in Hc. injection Hc as Hd.
      rewrite local_part_no_at; auto.
  - split; [| split].
    + split; [discriminate | intros (seg & Hseg & _); discriminate].
    + reflexivity.
    + reflexivity.
Qed.

Example isDisposable_examples :
  isDisposable (js "someone@TempMail.com") = true
  /\ isDisposable (js "someone@throwaway.email") = true
  /\ isDisposable (js "someone@example.com") = false
  /\ isDisposable (js "tempmail.com") = false
  /\ isDisposable (js "x@evil.com@tempmail.com") = false.
Proof. repeat split; reflexivity. Qed.

End DisposableProperties.

(* ================================================================== *)
(** ** Further properties of the validation routes *)
(* ================================================================== *)

Module MoreRouteProperties.
Import Js Regex Routes Spec SpecMore RegexFacts PatternFacts RouteFacts.

Lemma matches_pattern s : matches s = syntax_pattern s.
Proof.
  pose proof (matches_decomposes s) as H1.
  pose proof (decomposes_pattern s) as H2.
  destruct (matches s), (syntax_pattern s); try reflexivity.
  - symmetry. apply H2, H1. reflexivity.
  - apply H1, H2. reflexivity.
Qed.

Lemma batch_emails_body entries :
  batch (emails_body entries) =
  match traverse entry_result entries with
  | Normal rs => Normal (batch_response rs)
  | ThrowTypeError => ThrowTypeError
  end.
Proof.
  unfold emails_body.
  rewrite (batch_array _ entries (destructure_single (js "emails") _)).
  destruct (traverse entry_result entries) as [rs|] eqn:Ht; [|reflexivity].
  apply traverse_results in Ht. unfold batch_response.
  rewrite (Forall2_length Ht). reflexivity.
Qed.

Lemma traverse_app a b :
  traverse entry_result (a ++ b) =
  match traverse entry_result a, traverse entry_result b with
  | Normal ra, Normal rb => Normal (ra ++ rb)
  | _, _ => ThrowTypeError
  end.
Proof.
  induction a as [|e a IH]; simpl.
  - destruct (traverse entry_result b); reflexivity.
  - destruct (entry_result e) as [r|]; [|reflexivity].
    rewrite IH.
    destruct (traverse entry_result a), (traverse entry_result b); reflexivity.
Qed.

Lemma falsy_invalid e : ToBoolean e = false -> syntax_test e = Normal false.
Proof.
  unfold syntax_test.
  destruct e as [| |b|r|s|l|props]; simpl; try discriminate; try reflexivity.
  - destruct b; [discriminate | reflexivity].
  - unfold jsstring_eqb.
    destruct (list_eq_dec N.eq_dec r (js "0")) as [->|_]; [reflexivity|].
    destruct (list_eq_dec N.eq_dec r (js "NaN")) as [->|_]; [reflexivity|].
    discriminate.
  - destruct s; [reflexivity | discriminate].
Qed.

Lemma filter_all (rs : list ValidationResult) :
  length (filter valid rs) <= length rs
  /\ (length (filter valid rs) = length rs <-> Forall (fun r => valid r = true) rs).
Proof.
  induction rs as [|r rs [IHle IHiff]]; simpl.
  - split; [lia|]. split; [constructor | reflexivity].
  - destruct (valid r) eqn:Hv; simpl.
    + split; [lia|]. split.
      * intros H. constructor; [exact Hv | apply IHiff; lia].
      * intros H. inversion H; subst. f_equal. apply IHiff. assumption.
    + split; [lia|]. split; [lia|].
      intros H. inversion H; subst. congruence.
Qed.

Lemma ToString_array_of_strings parts :
  ToString (array_of_strings parts) = Normal (intercalate parts).
Proof.
  unfold array_of_strings. cbn [ToString].
  match goal with
  | |- match ?f (map VStr parts) with _ => _ end = _ =>
      assert (H : f (map VStr parts) = Normal parts)
  end.
  { induction parts as [|p parts IH]; cbn; [reflexivity|].
    cbn in IH. rewrite IH. reflexivity. }
  rewrite H. reflexivity.
Qed.

(** X1: the single route has three outcomes, settled by the [email] field
    alone: 400 exactly when it is falsy; a TypeError exactly when it is
    truthy and has no string conversion; otherwise 200, the value echoed
    and the test applied to its string conversion. *)
Theorem validate_outcome body now e :
  destructure body (js "email") = Normal e ->
  (validate body now = Normal email_required <-> ToBoolean e = false)
  /\ (validate body now = ThrowTypeError <->
      ToBoolean e = true /\ ToString e = ThrowTypeError)
  /\ (forall s, ToBoolean e = true -> ToString e = Normal s ->
        validate body now = Normal (validation_response e (matches s) now)).
Proof.
  intros Hd. destruct (ToBoolean e) eqn:Ht.
  - rewrite (validate_truthy _ now _ Hd Ht). unfold syntax_test.
    destruct (ToString e) as [s|].
    + split; [split; discriminate|].
      split; [split; [discriminate | intros [_ H]; discriminate]|].
      intros s' _ H. injection H as <-. reflexivity.
    + split; [split; discriminate|].
      split; [tauto|]. intros s _ H. discriminate.
  - rewrite (validate_falsy _ now _ Hd Ht).
    split; [tauto|].
    split; [split; [discriminate | intros [H _]; discriminate]|].
    intros s H. discriminate.
Qed.

Lemma validate_outcome_witness :
  destructure (email_body (VObj [(js "toString", VNum (js "0"))])) (js "email")
  = Normal (VObj [(js "toString", VNum (js "0"))])
  /\ validate (email_body (VObj [(js "toString", VNum (js "0"))])) (js "now")
     = ThrowTypeError.
Proof.
  split; [reflexivity|].
  apply (validate_outcome
           (email_body (VObj [(js "toString", VNum (js "0"))])) (js "now")
           (VObj [(js "toString", VNum (js "0"))]) eq_refl).
  split; reflexivity.
Defined.

(** X2: an [email] that is an array of strings is validated as the strings
    joined with commas, and is never answered 400, whatever the strings:
    [valid] is the pattern on the joined string. *)
Theorem validate_array_of_strings body now parts :
  destructure body (js "email") = Normal (array_of_strings parts) ->
  validate body now
  = Normal (validation_response (array_of_strings parts)
              (syntax_pattern (intercalate parts)) now).
Proof.
  intros Hd. rewrite (validate_truthy _ now _ Hd eq_refl).
  unfold syntax_test.
  rewrite ToString_array_of_strings, matches_pattern. reflexivity.
Qed.

Lemma validate_array_of_strings_witness :
  destructure (email_body (array_of_strings [js "a"; js "b@c.d"])) (js "email")
  = Normal (array_of_strings [js "a"; js "b@c.d"])
  /\ validate (email_body (array_of_strings [js "a"; js "b@c.d"])) (js "now")
     = Normal (validation_response (array_of_strings [js "a"; js "b@c.d"])
                 true (js "now")).
Proof.
  split; [reflexivity|].
  apply (validate_array_of_strings
           (email_body (array_of_strings [js "a"; js "b@c.d"])) (js "now")
           [js "a"; js "b@c.d"]).
  reflexivity.
Defined.

Lemma batch_ok_inv body b :
  batch body = Normal (mkResponse 200 (BBatch b)) ->
  exists entries rs,
    destructure body (js "emails") = Normal (VArr entries)
    /\ Forall2 (fun e r => entry_result e = Normal r) entries rs
    /\ b = mkBatchResult rs (length entries) (length (filter valid rs)) 50.
Proof.
  intros H.
  destruct (destructure body (js "emails")) as [v|] eqn:Hd;
    [| unfold batch in H; rewrite Hd in H; discriminate].
  destruct (isArray v) eqn:Hv.
  - destruct v; try discriminate.
    rewrite (batch_array _ _ Hd) in H.
    destruct (traverse entry_result elements) as [rs|] eqn:Ht; [|discriminate].
    injection H as <-. apply traverse_results in Ht.
    exists elements, rs. auto.
  - rewrite (batch_not_array _ _ Hd Hv) in H. discriminate.
Qed.

(** X3: in every batch response, [total] is the number of results,
    [valid_count] never exceeds [total], and the two are equal exactly when
    every result is valid. *)
Theorem batch_counts body b :
  batch body = Normal (mkResponse 200 (BBatch b)) ->
  total b = length (results b)
  /\ valid_count b <= total b
  /\ (valid_count b = total b <-> Forall (fun r => valid r = true) (results b)).
Proof.
  intros H. destruct (batch_ok_inv _ _ H) as (entries & rs & _ & H2 & ->).
  simpl. rewrite (Forall2_length H2).
  destruct (filter_all rs) as [Hle Hiff]. auto.
Qed.

Lemma batch_counts_witness :
  let b := mkBatchResult
             [ mkValidationResult (VStr (js "a@b.com")) true 0.8%Q true;
               mkValidationResult (VStr (js "bad")) false 0%Q false ]
             2 1 50 in
  batch (emails_body [VStr (js "a@b.com"); VStr (js "bad")])
  = Normal (mkResponse 200 (BBatch b))
  /\ total b = length (results b)
  /\ valid_count b <= total b
  /\ (valid_count b = total b <-> Forall (fun r => valid r = true) (results b)).
Proof.
  intros b. split; [reflexivity|].
  apply (batch_counts (emails_body [VStr (js "a@b.com"); VStr (js "bad")]) b).
  reflexivity.
Defined.

(** X4: the batch route on a concatenation: it throws exactly when it throws
    on one of the two parts, and otherwise its results are the results of
    the parts in order, with [total] and [valid_count] their sums. *)
Theorem batch_append a b :
  (batch (emails_body (a ++ b)) = ThrowTypeError <->
   batch (emails_body a) = ThrowTypeError \/ batch (emails_body b) = ThrowTypeError)
  /\ (forall ra rb,
        batch (emails_body a) = Normal (batch_response ra) ->
        batch (emails_body b) = Normal (batch_response rb) ->
        batch (emails_body (a ++ b))
        = Normal (mkResponse 200
                    (BBatch (mkBatchResult (ra ++ rb)
                               (length ra + length rb)
                               (length (filter valid ra) + length (filter valid rb))
                               50)))).
Proof.
  rewrite !batch_emails_body, traverse_app.
  destruct (traverse entry_result a) as [xa|], (traverse entry_result b) as [xb|].
  - split; [split; [discriminate | intros [H|H]; discriminate]|].
    intros ra rb Ha Hb. unfold batch_response in *.
    injection Ha as Ha _ _. injection Hb as Hb _ _. subst.
    rewrite filter_app, !length_app. reflexivity.
  - split; [tauto | intros ra rb _ H; discriminate].
  - split; [tauto | intros ra rb H; discriminate].
  - split; [tauto | intros ra rb H; discriminate].
Qed.

(** X5: where the single route answers 400, the batch route does not: a falsy
    entry (the empty string, 0, [false], [null]) at any position of an
    accepted array is marked invalid in place. *)
Theorem batch_marks_falsy_invalid entries i e now :
  Forall convertible entries ->
  nth_error entries i = Some e ->
  ToBoolean e = false ->
  exists rs r,
    batch (emails_body entries) = Normal (batch_response rs)
    /\ nth_error rs i = Some r
    /\ email r = e /\ valid r = false
    /\ validate (email_body e) now = Normal email_required.
Proof.
  intros Hall Hi He.
  destruct (traverse_convertible _ Hall) as (rs & Hrs & H2).
  destruct (Forall2_nth _ _ _ _ H2 Hi) as (r & Hr & Her).
  apply entry_result_fields in Her as (Hemail & Htest & _).
  rewrite (falsy_invalid _ He) in Htest. injection Htest as Hv.
  exists rs, r. rewrite batch_emails_body, Hrs.
  repeat (split; [solve [auto]|]). unfold email_body.
  apply (validate_falsy _ now e (destructure_single (js "email") e) He).
Qed.

Lemma batch_marks_falsy_invalid_witness :
  exists rs r,
    batch (emails_body [VStr (js "a@b.com"); VNull]) = Normal (batch_response rs)
    /\ nth_error rs 1 = Some r
    /\ email r = VNull /\ valid r = false
    /\ validate (email_body VNull) (js "now") = Normal email_required.
Proof.
  apply (batch_marks_falsy_invalid [VStr (js "a@b.com"); VNull] 1 VNull (js "now")).
  - repeat constructor; discriminate.
  - reflexivity.
  - reflexivity.
Defined.

(** X6: on an entry that the single route validates (truthy, with a string
    conversion), the two routes agree on the whole result: the batch of
    that one entry holds exactly the result the single route sends. *)
Theorem single_entry_batch_agrees e now :
  ToBoolean e = true ->
  convertible e ->
  exists r,
    validate (email_body e) now
    = Normal (mkResponse 200
                (BValidation r (mkMetadata 10 now)
                   (js "Simplified validation - full features coming soon!")))
    /\ batch (emails_body [e]) = Normal (batch_response [r]).
Proof.
  intros Ht Hc. unfold email_body.
  rewrite (validate_truthy _ now e (destructure_single (js "email") e) Ht).
  rewrite batch_emails_body. simpl. unfold entry_result, syntax_test.
  unfold convertible in Hc.
  destruct (ToString e) as [s|]; [|congruence].
  eexists. split; reflexivity.
Qed.

Lemma single_entry_batch_agrees_witness :
  ToBoolean (VStr (js "a@b.com")) = true
  /\ convertible (VStr (js "a@b.com"))
  /\ exists r,
       validate (email_body (VStr (js "a@b.com"))) (js "now")
       = Normal (mkResponse 200
                   (BValidation r (mkMetadata 10 (js "now"))
                      (js "Simplified validation - full features coming soon!")))
       /\ batch (emails_body [VStr (js "a@b.com")]) = Normal (batch_response [r]).
Proof.
  split; [reflexivity|]. split; [discriminate|].
  apply (single_entry_batch_agrees (VStr (js "a@b.com")) (js "now"));
    [reflexivity | discriminate].
Defined.

(** X7: a string the literal accepts has at least five code units. *)
Theorem valid_at_least_five s : matches s = true -> 5 <= length s.
Proof.
  intros H. apply matches_decomposes in H.
  destruct H as (l & d1 & d2 & -> & Hl & Hd1 & Hd2 & _).
  rewrite length_app. simpl. rewrite length_app. simpl.
  destruct l; [congruence|]. destruct d1; [congruence|].
  destruct d2; [congruence|]. simpl. lia.
Qed.

Lemma valid_at_least_five_witness :
  matches (js "a@b.c") = true /\ 5 <= length (js "a@b.c").
Proof.
  split; [reflexivity | apply (valid_at_least_five (js "a@b.c")); reflexivity].
Defined.

(** X8: a string the literal accepts stays accepted when a code unit that is
    neither whitespace nor [@] is put in front of it or after it. *)
Theorem valid_extension s c :
  matches s = true ->
  class_unit c = true ->
  matches (c :: s) = true /\ matches (s ++ [c]) = true.
Proof.
  intros H Hc. apply matches_decomposes in H.
  destruct H as (l & d1 & d2 & -> & Hl & Hd1 & Hd2 & Hcl & Hc1 & Hc2).
  split; apply matches_decomposes.
  - exists (c :: l), d1, d2. simpl. rewrite Hc, Hcl.
    repeat (split; [solve [auto | discriminate]|]). assumption.
  - exists l, d1, (d2 ++ [c]).
    rewrite forallb_app. simpl. rewrite Hc, Hc2.
    split; [rewrite <- !app_assoc; simpl; rewrite <- app_assoc; reflexivity|].
    repeat (split; [solve [auto | destruct d2; discriminate]|]). reflexivity.
Qed.

Lemma valid_extension_witness :
  matches (js "a@b.com") = true
  /\ class_unit dot = true
  /\ matches (js ".a@b.com") = true /\ matches (js "a@b.com.") = true.
Proof.
  split; [reflexivity|]. split; [reflexivity|].
  apply (valid_extension (js "a@b.com") dot); reflexivity.
Defined.

End MoreRouteProperties.

(* ================================================================== *)
(** ** Further properties of the error middleware and the pipeline *)
(* ================================================================== *)

Module PipelineProperties.
Import Js Routes Spec SpecMore RouteFacts ErrorMw Server.

Lemma or_else_truthy a b : ToBoolean b = true -> ToBoolean (or_else a b) = true.
Proof. intros Hb. unfold or_else. destruct (ToBoolean a) eqn:Ha; assumption. Qed.

Lemma validate_status body now r :
  validate body now = Normal r -> Routes.status r = 200 \/ Routes.status r = 400.
Proof.
  intros H.
  destruct (destructure body (js "email")) as [e|] eqn:Hd;
    [| unfold validate in H; rewrite Hd in H; discriminate].
  destruct (ToBoolean e) eqn:Ht.
  - rewrite (validate_truthy _ now _ Hd Ht) in H.
    destruct (syntax_test e); [|discriminate]. injection H as <-. left. reflexivity.
  - rewrite (validate_falsy _ now _ Hd Ht) in H. injection H as <-.
    right. reflexivity.
Qed.

Lemma batch_status body r :
  batch body = Normal r -> Routes.status r = 200 \/ Routes.status r = 400.
Proof.
  intros H.
  destruct (destructure body (js "emails")) as [v|] eqn:Hd;
    [| unfold batch in H; rewrite Hd in H; discriminate].
  destruct (isArray v) eqn:Hv.
  - destruct v; try discriminate.
    rewrite (batch_array _ _ Hd) in H.
    destruct (traverse entry_result elements); [|discriminate].
    injection H as <-. left. reflexivity.
  - rewrite (batch_not_array _ _ Hd Hv) in H. injection H as <-.
    right. reflexivity.
Qed.

Lemma answer_of_expected env req message stack outcome :
  (forall r, outcome = Normal r -> Routes.status r = 200 \/ Routes.status r = 400) ->
  expected_answer env stack (answer_of env req message stack outcome).
Proof.
  intros H. destruct outcome as [r|]; simpl.
  - apply H. reflexivity.
  - unfold or_else. simpl. auto.
Qed.

(** X9: the error response never carries a falsy status, an empty error kind or
    an empty message: each falls back to its default; the message is the
    error's own when it has a non-empty one. *)
Theorem errorHandler_never_empty env err req :
  let r := errorHandler env err req in
  ToBoolean (ErrorMw.status r) = true
  /\ ToBoolean (body_error (ErrorMw.payload r)) = true
  /\ ToBoolean (body_message (ErrorMw.payload r)) = true
  /\ body_message (ErrorMw.payload r)
     = (if ToBoolean (err_message err) then err_message err
        else VStr (js "An unexpected error occurred")).
Proof.
  simpl. repeat split; try (apply or_else_truthy; reflexivity).
Qed.

(** X10: [NODE_ENV] decides the [stack] field and nothing else: the log entry
    always carries the error's message and stack, the status, error kind
    and message do not depend on it, and two settings that are both other
    than ['development'] give the same response. *)
Theorem errorHandler_environment env1 env2 err req :
  let r1 := errorHandler env1 err req in
  let r2 := errorHandler env2 err req in
  logged r1 = mkLog (err_message err) (err_stack err) (req_path req) (req_method req)
  /\ logged r1 = logged r2
  /\ ErrorMw.status r1 = ErrorMw.status r2
  /\ body_error (ErrorMw.payload r1) = body_error (ErrorMw.payload r2)
  /\ body_message (ErrorMw.payload r1) = body_message (ErrorMw.payload r2)
  /\ (is_development env1 = is_development env2 -> r1 = r2).
Proof.
  simpl. repeat split. intros H. unfold errorHandler. rewrite H. reflexivity.
Qed.

(** X11: through the application, the two validation routes answer with status
    200 or 400, or, when the handler throws, with the error middleware's
    500 and error kind [TypeError], the stack being sent in development
    mode only. *)
Theorem validation_routes_answers env req message stack body now :
  expected_answer env stack (post_validate env req message stack body now)
  /\ expected_answer env stack (post_batch env req message stack body).
Proof.
  split; apply answer_of_expected.
  - apply validate_status.
  - apply batch_status.
Qed.

(** X12: the batch request [{emails: entries}] is answered by the error
    middleware exactly when some entry has no string conversion. *)
Theorem post_batch_error_iff env req message stack entries :
  from_error_handler (post_batch env req message stack (emails_body entries)) = true
  <-> Exists (fun e => ToString e = ThrowTypeError) entries.
Proof.
  unfold post_batch, answer_of, emails_body.
  rewrite (batch_array _ entries (destructure_single (js "emails") _)).
  rewrite <- traverse_throws.
  destruct (traverse entry_result entries); simpl; split; congruence.
Qed.

Example post_batch_examples :
  let env := mkEnv None None (Some (js "production")) None None None None in
  let req := mkRequest (js "/batch") (js "POST") in
  post_batch env req (js "Cannot convert object to primitive value") (js "trace")
    (emails_body [VObj [(js "toString", VNum (js "0"))]])
  = FromErrorHandler
      (mkErrorResponse
         (mkLog (VStr (js "Cannot convert object to primitive value"))
                (VStr (js "trace")) (js "/batch") (js "POST"))
         (VNum (js "500"))
         (mkBody (VStr (js "TypeError"))
                 (VStr (js "Cannot convert object to primitive value")) None)).
Proof. reflexivity. Qed.

(** X13: a variable set to the empty string is configured like an unset one. *)
Theorem empty_variable_is_unset env :
  configure (without_empty env) = configure env
  /\ is_development (NODE_ENV (without_empty env)) = is_development (NODE_ENV env).
Proof.
  destruct env as [p h n c t b v]. unfold configure, without_empty. simpl.
  unfold port, host, node_env, cors_origin, trust_proxy, mount_path, root,
    apiBasePath, apiVersion. simpl.
  destruct p as [[|? ?]|], h as [[|? ?]|], n as [[|? ?]|], c as [[|? ?]|],
    t as [[|? ?]|], b as [[|? ?]|], v as [[|? ?]|]; split; reflexivity.
Qed.

(** X14: with [NODE_ENV] unset or empty, [server.ts] reports the mode
    ['development'], and the error middleware sends no stack. *)
Theorem unset_mode_withholds_stack env err req :
  unset_if_empty (NODE_ENV env) = None ->
  node_env env = js "development"
  /\ body_stack (ErrorMw.payload (errorHandler (NODE_ENV env) err req)) = None.
Proof.
  unfold node_env. destruct (NODE_ENV env) as [[|c s]|]; simpl;
    try discriminate; intros _; split; reflexivity.
Qed.

Lemma unset_mode_withholds_stack_witness :
  unset_if_empty (NODE_ENV (mkEnv None None None None None None None)) = None
  /\ node_env (mkEnv None None None None None None None) = js "development"
  /\ body_stack
       (ErrorMw.payload
          (errorHandler (NODE_ENV (mkEnv None None None None None None None))
             (TypeError_object (js "m") (js "trace"))
             (mkRequest (js "/") (js "GET"))))
     = None.
Proof.
  split; [reflexivity|].
  apply (unset_mode_withholds_stack (mkEnv None None None None None None None)).
  reflexivity.
Defined.

End PipelineProperties.

(* ================================================================== *)
(** ** Properties of the external stores and of shutdown *)
(* ================================================================== *)

Module LifecycleProperties.
Import Js SpecMore Lifecycle.

Lemma perform_keeps_clients m c :
  redisClient (perform m c) = redisClient m
  /\ dbClient (perform m c) = dbClient m
  /\ length (console (perform m c)) = S (length (console m)).
Proof.
  destruct c; simpl; rewrite length_app; simpl; repeat split; lia.
Qed.

Lemma perform_all_keeps_clients calls m :
  redisClient (perform_all calls m) = redisClient m
  /\ dbClient (perform_all calls m) = dbClient m
  /\ length (console (perform_all calls m)) = length calls + length (console m).
Proof.
  unfold perform_all. revert m.
  induction calls as [|c calls IH]; intros m; simpl; [auto|].
  destruct (IH (perform m c)) as (Hr & Hd & Hc).
  destruct (perform_keeps_clients m c) as (Hr' & Hd' & Hc').
  rewrite Hr, Hd, Hc, Hr', Hd', Hc'. repeat split. lia.
Qed.

(** X15: however often and in whatever order the initialisers are called after
    the modules are loaded, both client getters still return [null], each
    call has written one console line, and the shutdown callback touches no
    client and exits with status 0. *)
Theorem initialisers_create_no_client calls :
  let m := perform_all calls loaded in
  getRedisClient m = None
  /\ getDatabaseClient m = None
  /\ length (console m) = length calls
  /\ close_callback m
     = [ Info (js "HTTP server closed");
         Info (js "Graceful shutdown completed");
         Exit 0 ].
Proof.
  destruct (perform_all_keeps_clients calls loaded) as (Hr & Hd & Hc).
  simpl in *. unfold getRedisClient, getDatabaseClient, close_callback,
    close_database, getRedisClient, getDatabaseClient.
  rewrite Hr, Hd, Hc. repeat split. lia.
Qed.

(** X16: the shutdown callback calls [process.exit] exactly once, as its last
    step, with status 0 exactly when every client that is present closes;
    the database is disconnected exactly when there is a database client
    and the Redis client, if any, has closed. *)
Theorem close_callback_exit m :
  let code := if all_close m then 0 else 1 in
  last (close_callback m) (Info []) = Exit code
  /\ filter is_exit (close_callback m) = [Exit code]
  /\ existsb is_disconnect (close_callback m) = database_reached m.
Proof.
  destruct m as [[[cr]|] [[cd]|] out];
    unfold close_callback, close_database, getRedisClient, getDatabaseClient,
      all_close, database_reached; simpl;
    try destruct cr; try destruct cd; repeat split; reflexivity.
Qed.

Example redis_failure_skips_database :
  close_callback (mkModules (Some (mkClient false)) (Some (mkClient true)) [])
  = [ Info (js "HTTP server closed"); RedisQuit;
      Error (js "Error during graceful shutdown"); Exit 1 ].
Proof. reflexivity. Qed.

End LifecycleProperties.

(* ================================================================== *)
(** ** Further properties of the disposable-domain checker *)
(* ================================================================== *)

Module MoreDisposableProperties.
Import Js Regex Spec SpecMore Disposable RegexFacts PatternFacts DisposableProperties.

Ltac compare_units :=
  repeat match goal with
         | |- context [(?a <=? ?b)%N] => destruct (N.leb_spec a b)
         | |- context [(?a =? ?b)%N] => destruct (N.eqb_spec a b)
         end;
  simpl in *; try reflexivity; try discriminate; try lia; try (exfalso; lia).

Lemma upper_at c : (ascii_upper c =? at_sign)%N = (c =? at_sign)%N.
Proof. unfold ascii_upper, at_sign. compare_units. Qed.

Lemma lower_upper c : lower_unit (ascii_upper c) = lower_unit c.
Proof.
  unfold ascii_upper.
  destruct ((97 <=? c) && (c <=? 122))%N eqn:E; [|reflexivity].
  apply andb_prop in E as [E1 E2]. apply N.leb_le in E1, E2.
  unfold lower_unit. compare_units. f_equal. lia.
Qed.

Lemma split_upper s :
  split at_sign (map ascii_upper s) = map (map ascii_upper) (split at_sign s).
Proof.
  induction s as [|c s IH]; simpl; [reflexivity|].
  rewrite upper_at. destruct (c =? at_sign)%N; simpl.
  - rewrite IH. reflexivity.
  - rewrite IH. destruct (split at_sign s); reflexivity.
Qed.

Lemma toLowerCase_upper d : toLowerCase (map ascii_upper d) = toLowerCase d.
Proof.
  unfold toLowerCase. induction d as [|c d IH]; simpl; [reflexivity|].
  rewrite lower_upper, IH. reflexivity.
Qed.

Lemma isDisposable_upper s : isDisposable (map ascii_upper s) = isDisposable s.
Proof.
  unfold isDisposable. rewrite split_upper, nth_error_map.
  destruct (nth_error (split at_sign s) 1) as [d|]; simpl; [|reflexivity].
  rewrite toLowerCase_upper. reflexivity.
Qed.

(** X17: the checker ignores the case of Basic Latin letters, in the domain and
    elsewhere: two inputs that differ only in it get the same answer. *)
Theorem isDisposable_ignores_case s1 s2 :
  map ascii_upper s1 = map ascii_upper s2 ->
  isDisposable s1 = isDisposable s2.
Proof.
  intros H. rewrite <- (isDisposable_upper s1), <- (isDisposable_upper s2), H.
  reflexivity.
Qed.

Lemma isDisposable_ignores_case_witness :
  map ascii_upper (js "Someone@TempMail.COM") = map ascii_upper (js "someone@tempmail.com")
  /\ isDisposable (js "Someone@TempMail.COM") = isDisposable (js "someone@tempmail.com").
Proof.
  split; [reflexivity|].
  apply (isDisposable_ignores_case (js "Someone@TempMail.COM")
           (js "someone@tempmail.com")).
  reflexivity.
Defined.

(** X18: on a string the syntax test accepts, the checker looks at the whole
    part after the [@]: it answers [true] exactly when that part,
    lowercased, is listed. *)
Theorem isDisposable_on_valid s :
  matches s = true ->
  isDisposable s = listed (Some (domain_part s)).
Proof.
  intros H. apply matches_decomposes, decomposes_pattern in H.
  unfold syntax_pattern in H.
  apply andb_prop in H as [H _]. apply andb_prop in H as [H _].
  apply andb_prop in H as [H _]. apply Nat.eqb_eq in H.
  unfold isDisposable, listed, domain_part. rewrite split_second.
  unfold between_ats. rewrite count_at_after in H.
  destruct (after_first_at s) as [d|]; [|discriminate].
  injection H as H. simpl. rewrite local_part_no_at by exact H. reflexivity.
Qed.

Lemma isDisposable_on_valid_witness :
  matches (js "someone@Throwaway.Email") = true
  /\ isDisposable (js "someone@Throwaway.Email") = true
  /\ listed (Some (domain_part (js "someone@Throwaway.Email"))) = true.
Proof.
  split; [reflexivity|].
  rewrite <- (isDisposable_on_valid (js "someone@Throwaway.Email") eq_refl).
  split; reflexivity.
Defined.

Lemma lower_unit_cases c :
  (exists x, lower_unit c = [x]) \/ lower_unit c = [105%N; 775%N].
Proof.
  unfold lower_unit.
  destruct ((65 <=? c) && (c <=? 90))%N; [eauto|].
  destruct ((192 <=? c) && (c <=? 222) && negb (c =? 215))%N; [eauto|].
  destruct (c =? 304)%N; [auto|].
  destruct (c =? 8490)%N; eauto.
Qed.

Lemma domain_char_range x :
  domain_char x = true -> (46 <= x <= 122 /\ x <> 64 /\ x <> 107)%N.
Proof. unfold domain_char. compare_units. Qed.

Lemma not_space_range c : (33 <= c <= 159)%N -> is_space c = false.
Proof. intros H. unfold is_space. compare_units. Qed.

Lemma lower_unit_domain c x :
  lower_unit c = [x] -> domain_char x = true ->
  class_unit c = true /\ (c = dot <-> x = dot).
Proof.
  intros Hl Hx. apply domain_char_range in Hx.
  assert (Hc : (c = x \/ (65 <= c <= 90 /\ x = c + 32))%N).
  { revert Hl. unfold lower_unit.
    destruct (N.leb_spec 65 c), (N.leb_spec c 90); simpl;
      try (intros Hl; injection Hl as <-; lia).
    all: destruct ((192 <=? c) && (c <=? 222) && negb (c =? 215))%N eqn:E;
      [ apply andb_prop in E as [E _]; apply andb_prop in E as [E _];
        apply N.leb_le in E; intros Hl; injection Hl as <-; lia |].
    all: destruct (c =? 304)%N; [discriminate|].
    all: destruct (N.eqb_spec c 8490);
      [ intros Hl; injection Hl as <-; lia | intros Hl; injection Hl as <-; auto ]. }
  unfold class_unit, is_at, at_sign, dot.
  rewrite not_space_range by lia.
  destruct (N.eqb_spec c 64); [lia|]. split; [reflexivity | lia].
Qed.

Lemma lowered_units d t :
  toLowerCase d = t -> forallb domain_char t = true ->
  Forall2 (fun c x => lower_unit c = [x]) d t.
Proof.
  unfold toLowerCase. revert t. induction d as [|c d IH]; simpl; intros t Ht Hall.
  - subst. constructor.
  - destruct (lower_unit_cases c) as [[x Hx]|Hx]; rewrite Hx in Ht; subst t;
      simpl in Hall.
    + apply andb_prop in Hall as [_ Hall]. constructor; auto.
    + discriminate.
Qed.

Lemma lowered_class d t :
  Forall2 (fun c x => lower_unit c = [x]) d t ->
  forallb domain_char t = true ->
  forallb class_unit d = true.
Proof.
  induction 1 as [|c x d t Hcx _ IH]; simpl; [reflexivity|].
  intros Hall. apply andb_prop in Hall as [Hx Hall].
  destruct (lower_unit_domain _ _ Hcx Hx) as [-> _]. simpl. auto.
Qed.

Lemma listed_shape t :
  In t disposableDomains ->
  forallb domain_char t = true /\ has_inner_dot t = true.
Proof.
  simpl. intros [<- | [<- | [<- | [<- | []]]]]; split; reflexivity.
Qed.

(** X19: an input with a non-empty local part free of whitespace and [@],
    followed by [@] and a domain whose lowercase form is listed, is
    reported disposable and is accepted by the syntax test of the routes. *)
Theorem disposable_address_is_valid l d :
  l <> [] ->
  forallb class_unit l = true ->
  In (toLowerCase d) disposableDomains ->
  isDisposable (l ++ at_sign :: d) = true
  /\ matches (l ++ at_sign :: d) = true.
Proof.
  intros Hl Hcl Hin.
  destruct (listed_shape _ Hin) as [Hchars Hdot].
  pose proof (lowered_units d _ eq_refl Hchars) as H2.
  pose proof (lowered_class _ _ H2 Hchars) as Hcd.
  apply class_unit_parts in Hcl as Hl0. destruct Hl0 as [_ Hl0].
  apply class_unit_parts in Hcd as Hd0. destruct Hd0 as [_ Hd0].
  split.
  - unfold isDisposable. rewrite split_second. unfold between_ats.
    rewrite after_first_at_app by exact Hl0. simpl option_map.
    rewrite local_part_no_at by exact Hd0.
    apply includes_In. exact Hin.
  - apply matches_decomposes.
    apply inner_dot_split in Hdot as (t1 & t2 & Ht & Ht1 & Ht2).
    rewrite Ht in H2, Hchars.
    apply Forall2_app_inv_r in H2 as (d1 & d2' & H21 & H22 & ->).
    inversion H22 as [|c x d2 t2' Hc H23]; subst.
    assert (Hcdot : domain_char dot = true) by reflexivity.
    destruct (lower_unit_domain _ _ Hc Hcdot) as [_ [_ Hceq]].
    specialize (Hceq eq_refl). subst c.
    rewrite forallb_app in Hcd. apply andb_prop in Hcd as [Hd1 Hd2].
    change (forallb class_unit (dot :: d2))
      with (class_unit dot && forallb class_unit d2) in Hd2.
    apply andb_prop in Hd2 as [_ Hd2].
    exists l, d1, d2. split; [reflexivity|].
    split; [exact Hl|].
    split; [intros ->; inversion H21; subst; congruence|].
    split; [intros ->; inversion H23; subst; congruence|].
    auto.
Qed.

Lemma disposable_address_is_valid_witness :
  js "someone" <> []
  /\ forallb class_unit (js "someone") = true
  /\ In (toLowerCase (js "TempMail.com")) disposableDomains
  /\ isDisposable (js "someone" ++ at_sign :: js "TempMail.com") = true
  /\ matches (js "someone" ++ at_sign :: js "TempMail.com") = true.
Proof.
  split; [discriminate|]. split; [reflexivity|]. split; [left; reflexivity|].
  apply (disposable_address_is_valid (js "someone") (js "TempMail.com"));
    [discriminate | reflexivity | left; reflexivity].
Defined.

End MoreDisposableProperties.
